(** * Geofenced attendance and visit-form validation of the 90-PH mobile client

    A shallow embedding of the attendance screen ([MarkAttendanceScreen]:
    [calculateDistance], [getDistanceToNearestOffice], [getLocation],
    [fetchAssignedOffices], [initializeData], [markAttendance],
    [proceedWithAttendance] and the range evaluation of its render body), of
    the visit-booking form ([validateForm] and [handleSubmit] of
    [BookVisitScreen]), of the bookings screen with its feedback forms
    ([Booking]), of the manager's dashboard ([loadData]) and of the project
    filter of the home page ([Page]).

    JavaScript numbers are IEEE 754 binary64 values, so they are modelled by
    Rocq's primitive floats, whose [+], [-], [*], [/], [sqrt] and comparisons
    are the IEEE operations the JavaScript operators denote.  [Math.sin],
    [Math.cos] and [Math.atan2] are host functions that ECMAScript leaves
    implementation-approximated; the attendance code is therefore embedded
    inside a section that takes them as variables, and every assumption made on
    them is spelled out in the statement that needs it.  A reference host
    ([RefHost]) makes the code run on concrete coordinates.
    [String.prototype.toLowerCase] and the parsing and formatting of dates and
    numbers are taken as variables in the same way.

    The definitions come first: numbers, the screen's state and handlers, the
    reference host, the booking form with its regular expressions, sample
    data, the other screens.  The facts follow: the order and the sign
    symmetry of binary64 operations, the resolver, the haversine distance, the
    geofence policy and the stored-accuracy invariant, the derivative matcher,
    the phone check, and then the office fetch, the submitted visit request,
    the feedback forms, the dashboard figures and the offered locations. *)

From Stdlib Require Import ZArith List Bool Lia String Floats.
From Stdlib Require NArith.
From Stdlib Require DecimalString.
Import ListNotations.

Local Open Scope float_scope.

(** ** JavaScript numbers *)

Module JS.

(** The [number] type. *)
Abbreviation number := float.

Definition Infinity : number := infinity.

(** [Math.PI], the double nearest to pi. *)
Definition Math_PI : number := 0x1.921fb54442d18p+1.

Definition Math_sqrt (x : number) : number := PrimFloat.sqrt x.

(** [ToBoolean] on a number: [+0], [-0] and [NaN] are falsy. *)
Definition truthy (x : number) : bool := negb (is_nan x || is_zero x).

(** [x || d] where [x] is [number | undefined] and [d] a number. *)
Definition or_default (x : option number) (d : number) : number :=
  match x with
  | Some v => if truthy v then v else d
  | None => d
  end.

End JS.

Import JS.

(** ** Interfaces of the attendance screen *)

Record OfficeData := mkOffice {
  id : string;
  officeName : string;
  latitude : number;
  longitude : number;
  requiredDistance : option number   (* [requiredDistance?: number] *)
}.

Record LocationData := mkLocation {
  lat : number;
  lng : number;
  accuracy : option number           (* [number | null] *)
}.

Definition ACCEPTABLE_GPS_ACCURACY_THRESHOLD : number := 1500.
Arguments ACCEPTABLE_GPS_ACCURACY_THRESHOLD : simpl never.

(** The object [{ distance, office }] returned by the resolver. *)
Record Nearest := mkNearest {
  distance : number;
  office : option OfficeData
}.

(** ** The screen's state and its collaborators *)

(** The signed-in user as [useUser] yields it. *)
Record User := mkUser {
  userId : string;
  firstName : option string
}.

(** Text shown to the user.  The two templated messages keep the numbers
    they interpolate instead of their [toFixed] rendering. *)
Inductive Message :=
| Text (s : string)
| LowGpsAccuracyText (accuracy : number)
| CurrentAccuracyText (accuracy : number)
| OutOfRangeText (name : string) (dist required : number)
| MarkedText (name : string) (dist : number).

(** [ToBoolean] of an error text ([string | null]): the empty string is
    falsy, and so is [null]. *)
Definition shows (e : option Message) : bool :=
  match e with
  | Some (Text s) => negb (String.eqb s "")
  | Some _ => true
  | None => false
  end.

(** What a button of an alert does when pressed. *)
Inductive Action := Dismiss | OpenSettings | ProceedWithAttendance.

Record Button := mkButton {
  label : string;
  onPress : Action
}.

(** An [Alert.alert] call; no buttons given leaves the default one, which
    only dismisses. *)
Record Alert := mkAlert {
  title : string;
  message : Message;
  buttons : list Button
}.

(** [x || d] on texts ([string | undefined]): the empty string is falsy. *)
Definition or_text (x : option string) (d : string) : string :=
  match x with
  | Some s => if String.eqb s "" then d else s
  | None => d
  end.

(** The permission status strings of the location module. *)
Inductive PermissionStatus := granted | denied | undetermined.

Definition is_granted (s : PermissionStatus) : bool :=
  match s with
  | granted => true
  | _ => false
  end.

(** [loc.coords] of a position fix. *)
Record Coords := mkCoords {
  coords_latitude : number;
  coords_longitude : number;
  coords_accuracy : option number
}.

(** What the location module answers during one [getLocation] call; [None]
    is a rejected promise. *)
Record LocationService := mkService {
  getForegroundPermissionsAsync : option PermissionStatus;
  requestForegroundPermissionsAsync : option PermissionStatus;
  getCurrentPositionAsync : option Coords
}.

(** The [useState] cells of [MarkAttendanceScreen], with the [useUser]
    values it reads. *)
Record Screen := mkScreen {
  user : option User;
  isLoaded : bool;
  location : option LocationData;
  assignedOffices : list OfficeData;
  loading : bool;
  marking : bool;
  refreshing : bool;
  error : option Message;
  locationPermissionStatus : option PermissionStatus;
  lastTap : number
}.

Definition initialScreen (u : option User) (loaded : bool) : Screen :=
  mkScreen u loaded None [] true false false None None 0.

Definition setLocation (v : option LocationData) (st : Screen) : Screen :=
  mkScreen (user st) (isLoaded st) v (assignedOffices st) (loading st)
           (marking st) (refreshing st) (error st)
           (locationPermissionStatus st) (lastTap st).

Definition setAssignedOffices (v : list OfficeData) (st : Screen) : Screen :=
  mkScreen (user st) (isLoaded st) (location st) v (loading st)
           (marking st) (refreshing st) (error st)
           (locationPermissionStatus st) (lastTap st).

Definition setLoading (v : bool) (st : Screen) : Screen :=
  mkScreen (user st) (isLoaded st) (location st) (assignedOffices st) v
           (marking st) (refreshing st) (error st)
           (locationPermissionStatus st) (lastTap st).

Definition setMarking (v : bool) (st : Screen) : Screen :=
  mkScreen (user st) (isLoaded st) (location st) (assignedOffices st)
           (loading st) v (refreshing st) (error st)
           (locationPermissionStatus st) (lastTap st).

Definition setRefreshing (v : bool) (st : Screen) : Screen :=
  mkScreen (user st) (isLoaded st) (location st) (assignedOffices st)
           (loading st) (marking st) v (error st)
           (locationPermissionStatus st) (lastTap st).

Definition setError (v : option Message) (st : Screen) : Screen :=
  mkScreen (user st) (isLoaded st) (location st) (assignedOffices st)
           (loading st) (marking st) (refreshing st) v
           (locationPermissionStatus st) (lastTap st).

Definition setLocationPermissionStatus (v : PermissionStatus) (st : Screen)
    : Screen :=
  mkScreen (user st) (isLoaded st) (location st) (assignedOffices st)
           (loading st) (marking st) (refreshing st) (error st)
           (Some v) (lastTap st).

Definition setLastTap (v : number) (st : Screen) : Screen :=
  mkScreen (user st) (isLoaded st) (location st) (assignedOffices st)
           (loading st) (marking st) (refreshing st) (error st)
           (locationPermissionStatus st) v.

(** [accuracy && accuracy > ACCEPTABLE_GPS_ACCURACY_THRESHOLD] as a
    condition, for [accuracy : number | null]. *)
Definition exceedsAccuracyThreshold (accuracy : option number) : bool :=
  match accuracy with
  | Some a => truthy a && (ACCEPTABLE_GPS_ACCURACY_THRESHOLD <? a)
  | None => false
  end.

(** The accuracy of a stored location is [null] or not above the
    threshold. *)
Definition storedAccuracyOk (l : option LocationData) : bool :=
  match l with
  | None => true
  | Some loc =>
      match accuracy loc with
      | None => true
      | Some a => negb (ACCEPTABLE_GPS_ACCURACY_THRESHOLD <? a)
      end
  end.

(** The [catch] block of [getLocation]. *)
Definition getLocation_catch (st : Screen) : Screen * list Alert :=
  let st := setError
    (Some (Text "Unable to get location. Please check your GPS settings.")) st in
  (setLocation None st, []).

(** [getLocation] from the position request on. *)
Definition getLocation_position (svc : LocationService) (st : Screen)
    : Screen * list Alert :=
  match getCurrentPositionAsync svc with
  | None => getLocation_catch st
  | Some coords =>
      if exceedsAccuracyThreshold (coords_accuracy coords) then
        let st := setError
          (option_map LowGpsAccuracyText (coords_accuracy coords)) st in
        (setLocation None st, [])
      else
        (setLocation
           (Some (mkLocation (coords_latitude coords) (coords_longitude coords)
                             (coords_accuracy coords))) st, [])
  end.

Definition permissionAlert : Alert :=
  mkAlert "Location Permission Required"
          (Text "Please enable location access to mark attendance.")
          [mkButton "Cancel" Dismiss; mkButton "Settings" OpenSettings].

(** [getLocation] after its first statement, [setError(null)]: everything
    from the first [await] on. *)
Definition getLocation_body (svc : LocationService) (st : Screen)
    : Screen * list Alert :=
  match getForegroundPermissionsAsync svc with
  | None => getLocation_catch st
  | Some existingStatus =>
      let st := setLocationPermissionStatus existingStatus st in
      if negb (is_granted existingStatus) then
        match requestForegroundPermissionsAsync svc with
        | None => getLocation_catch st
        | Some status =>
            let st := setLocationPermissionStatus status st in
            if negb (is_granted status) then
              let st := setError (Some (Text "Location permission denied.")) st in
              (setLocation None st, [permissionAlert])
            else getLocation_position svc st
        end
      else getLocation_position svc st
  end.

Definition getLocation (svc : LocationService) (st : Screen)
    : Screen * list Alert :=
  getLocation_body svc (setError None st).

(** What [fetchAssignedOffices] ends up with: a thrown error carrying its
    message (network failure, body that is not JSON, status that is not ok,
    data that is not an array), or the parsed array. *)
Inductive OfficesResponse :=
| OfficesFailed (msg : string)
| OfficesData (data : list OfficeData).

(** [fetchAssignedOffices] from its [await fetch] on. *)
Definition fetchAssignedOffices_body (resp : OfficesResponse) (st : Screen)
    : Screen :=
  match resp with
  | OfficesFailed msg => setAssignedOffices [] (setError (Some (Text msg)) st)
  | OfficesData data =>
      if Nat.eqb (List.length data) 0 then
        setAssignedOffices []
          (setError (Some (Text "No offices assigned to your account.")) st)
      else setAssignedOffices data st
  end.

(** [user] as a condition. *)
Definition signedIn (st : Screen) : bool :=
  match user st with
  | Some _ => true
  | None => false
  end.

(** [user?.id] as a condition: a user whose id is not the empty string. *)
Definition hasUserId (st : Screen) : bool :=
  match user st with
  | Some u => negb (String.eqb (userId u) "")
  | None => false
  end.

Definition fetchAssignedOffices (resp : OfficesResponse) (st : Screen) : Screen :=
  if hasUserId st then fetchAssignedOffices_body resp st
  else setError (Some (Text "Authentication required.")) st.

(** Which of the two requests of [Promise.all] settles first. *)
Inductive Settling := OfficesFirst | LocationFirst.

(** [initializeData]: [Promise.all] starts both requests, so each runs up
    to its first [await] at once (the offices' guard, then the location's
    [setError(null)]); their continuations then update the state each as a
    block, in the order the requests settle.  Neither promise rejects, both
    functions catch their own errors. *)
Definition initializeData (order : Settling) (resp : OfficesResponse)
    (svc : LocationService) (st : Screen) : Screen * list Alert :=
  let st := setError None (setLoading true st) in
  let st := if hasUserId st then st
            else setError (Some (Text "Authentication required.")) st in
  let finishOffices s :=
    if hasUserId st then fetchAssignedOffices_body resp s else s in
  let st := setError None st in
  let '(st, alerts) :=
    match order with
    | OfficesFirst => getLocation_body svc (finishOffices st)
    | LocationFirst =>
        let '(s, shown) := getLocation_body svc st in (finishOffices s, shown)
    end in
  (setLoading false st, alerts).

Definition onRefresh (order : Settling) (resp : OfficesResponse)
    (svc : LocationService) (st : Screen) : Screen * list Alert :=
  let '(st, alerts) := initializeData order resp svc (setRefreshing true st) in
  (setRefreshing false st, alerts).

Section Attendance.

(** The host's [Math.sin], [Math.cos] and [Math.atan2]. *)
Variables Math_sin Math_cos : number -> number.
Variable Math_atan2 : number -> number -> number.

Definition calculateDistance (lat1 lon1 lat2 lon2 : number) : number :=
  let R := 6371e3 in
  let φ1 := (lat1 * Math_PI) / 180 in
  let φ2 := (lat2 * Math_PI) / 180 in
  let Δφ := ((lat2 - lat1) * Math_PI) / 180 in
  let Δλ := ((lon2 - lon1) * Math_PI) / 180 in
  let a :=
    Math_sin (Δφ / 2) * Math_sin (Δφ / 2) +
    Math_cos φ1 * Math_cos φ2 * Math_sin (Δλ / 2) * Math_sin (Δλ / 2) in
  let c := 2 * Math_atan2 (Math_sqrt a) (Math_sqrt (1 - a)) in
  R * c.

(** One iteration of the [for ... of] loop: the pair is
    [(minDistance, nearestOffice)]. *)
Definition scanOffice (location : LocationData)
    (acc : number * option OfficeData) (o : OfficeData)
    : number * option OfficeData :=
  let '(minDistance, nearestOffice) := acc in
  let d := calculateDistance (lat location) (lng location)
                             (latitude o) (longitude o) in
  if d <? minDistance then (d, Some o) else (minDistance, nearestOffice).

Definition getDistanceToNearestOffice
    (location : option LocationData) (assignedOffices : list OfficeData)
    : Nearest :=
  match location with
  | None => mkNearest Infinity None
  | Some loc =>
      if Nat.eqb (List.length assignedOffices) 0
      then mkNearest Infinity None
      else
        let '(minDistance, nearestOffice) :=
          fold_left (scanOffice loc) assignedOffices (Infinity, None) in
        mkNearest minDistance nearestOffice
  end.

(** [nearestOffice?.requiredDistance || 1000] *)
Definition requiredGeofenceDistance (nearestOffice : option OfficeData) : number :=
  or_default
    (match nearestOffice with
     | Some o => requiredDistance o
     | None => None
     end)
    1000.

(** What the attendance endpoint answers to [proceedWithAttendance]:
    [NetworkError] stands for every path into its [catch] (a rejected
    request, a body that is not JSON). *)
Inductive AttendanceResponse :=
| NetworkError
| MarkedOk (responseOfficeName : option string)
| MarkedFailed (reason : string).

(** [proceedWithAttendance]: the guard, and the alert the response leads
    to; [marking] is raised for the time of the request. *)
Definition proceedWithAttendance (resp : AttendanceResponse) (st : Screen)
    : Screen * Alert :=
  match user st, location st, assignedOffices st with
  | Some _, Some _, _ :: _ =>
      let st := setMarking true st in
      let r := getDistanceToNearestOffice (location st) (assignedOffices st) in
      let shown :=
        match resp with
        | MarkedOk name =>
            let shownName :=
              or_text name (or_text (option_map officeName (office r)) "N/A") in
            mkAlert "Success ✓" (MarkedText shownName (distance r))
                    [mkButton "OK" Dismiss]
        | MarkedFailed reason => mkAlert "Failed" (Text reason) []
        | NetworkError =>
            mkAlert "Network Error"
                    (Text "Please check your connection and try again.") []
        end in
      (setMarking false st, shown)
  | _, _, _ =>
      (st, mkAlert "Error" (Text "Unable to mark attendance. Please try again.") [])
  end.

(** How a run of [markAttendance] ends: it returns, having shown at most
    one alert, or it goes on to [await proceedWithAttendance()]. *)
Inductive Mark :=
| Returned (shown : option Alert)
| Proceeds.

Definition lowAccuracyAlert (accuracy : number) : Alert :=
  mkAlert "Low GPS Accuracy" (CurrentAccuracyText accuracy)
          [mkButton "Cancel" Dismiss; mkButton "Continue" ProceedWithAttendance].

Definition outOfRangeAlert (o : OfficeData) (d required : number) : Alert :=
  mkAlert "Out of Range" (OutOfRangeText (officeName o) d required)
          [mkButton "Cancel" Dismiss; mkButton "Mark Anyway" ProceedWithAttendance].

Definition markAttendance (now : number) (st : Screen) : Screen * Mark :=
  if now - lastTap st <? 1500 then (st, Returned None)
  else
    let st := setLastTap now st in
    match user st with
    | None =>
        (st, Returned (Some (mkAlert "Error" (Text "Please sign in to continue.") [])))
    | Some _ =>
        match location st with
        | None =>
            (st, Returned (Some (mkAlert "Location Required"
              (Text "Please enable location services and try again.") [])))
        | Some loc =>
            if Nat.eqb (List.length (assignedOffices st)) 0 then
              (st, Returned (Some (mkAlert "No Offices"
                (Text "No offices assigned to your account.") [])))
            else if exceedsAccuracyThreshold (accuracy loc) then
              (st, Returned (option_map lowAccuracyAlert (accuracy loc)))
            else
              let r := getDistanceToNearestOffice (location st) (assignedOffices st) in
              let required := requiredGeofenceDistance (office r) in
              match office r with
              | None =>
                  (st, Returned (Some (mkAlert "Error"
                    (Text "Unable to find nearest office.") [])))
              | Some nearestOffice =>
                  if required <? distance r then
                    (st, Returned (Some
                      (outOfRangeAlert nearestOffice (distance r) required)))
                  else (st, Proceeds)
              end
        end
    end.

(** Whether a run of [markAttendance] reaches [proceedWithAttendance], at
    once or behind a button of the alert it shows. *)
Definition canProceed (m : Mark) : bool :=
  match m with
  | Proceeds => true
  | Returned (Some a) =>
      existsb (fun b => match onPress b with
                        | ProceedWithAttendance => true
                        | _ => false
                        end) (buttons a)
  | Returned None => false
  end.

(** The three values the render body computes for the main content. *)
Record RangeStatus := mkRange {
  shownDistance : number;
  shownOffice : option OfficeData;
  isWithinRange : bool
}.

(** [distance <= requiredGeofenceDistance], the threshold being taken from
    the nearest office as above. *)
Definition withinRange (d : number) (nearestOffice : option OfficeData) : bool :=
  d <=? requiredGeofenceDistance nearestOffice.

Definition evaluateRange (st : Screen) : RangeStatus :=
  let r := getDistanceToNearestOffice (location st) (assignedOffices st) in
  mkRange (distance r) (office r) (withinRange (distance r) (office r)).

(** Which of its four views the component renders. *)
Inductive View :=
| LoadingView
| SignInView
| ErrorView (e : Message)
| MainView (r : RangeStatus).

Definition render (st : Screen) : View :=
  if negb (isLoaded st) || loading st then LoadingView
  else
    match user st with
    | None => SignInView
    | Some _ =>
        match error st with
        | Some e => if shows (error st) then ErrorView e
                    else MainView (evaluateRange st)
        | None => MainView (evaluateRange st)
        end
    end.

(** The handlers and hook updates that change the screen's state. *)
Inductive step : Screen -> Screen -> Prop :=
| step_useUser u loaded st :
    step st (mkScreen u loaded (location st) (assignedOffices st) (loading st)
                      (marking st) (refreshing st) (error st)
                      (locationPermissionStatus st) (lastTap st))
| step_getLocation svc st :
    step st (fst (getLocation svc st))
| step_fetchAssignedOffices resp st :
    step st (fetchAssignedOffices resp st)
| step_initializeData order resp svc st :
    step st (fst (initializeData order resp svc st))
| step_onRefresh order resp svc st :
    step st (fst (onRefresh order resp svc st))
| step_markAttendance now st :
    step st (fst (markAttendance now st))
| step_proceedWithAttendance resp st :
    step st (fst (proceedWithAttendance resp st)).

(** The states the screen can be in, from its mount on. *)
Inductive reachable : Screen -> Prop :=
| reachable_mount u loaded : reachable (initialScreen u loaded)
| reachable_step st st' : reachable st -> step st st' -> reachable st'.

End Attendance.

(** ** A reference host

    An executable [Math.sin], [Math.cos] and [Math.atan2] on binary64, by
    range reduction and Taylor sums.  The theorems below hold for any host;
    this one serves to run the embedded code on concrete coordinates. *)

Module RefHost.

(** Nearest integer, for magnitudes below [2^51]. *)
Definition nearest_int (x : number) : number := (x + 0x1.8p52) - 0x1.8p52.

Definition two_pi : number := 2 * Math_PI.

(** [x] brought into [[-pi, pi]]. *)
Definition reduce (x : number) : number := x - nearest_int (x / two_pi) * two_pi.

(** [n] further terms of an alternating power series in [x2]: [term] is
    the last term added, [k] the index of its denominator, [step] how the
    denominator of the next term is formed from [k]. *)
Fixpoint series (n : nat) (step : number -> number) (x2 term k acc : number)
    : number :=
  match n with
  | O => acc
  | S n' =>
      let term' := - (term * x2) / step k in
      series n' step x2 term' (k + 2) (acc + term')
  end.

Definition sin_sum (r : number) : number :=
  series 14 (fun k => (k + 1) * (k + 2)) (r * r) r 1 r.

Definition cos_sum (r : number) : number :=
  series 14 (fun k => (k + 1) * (k + 2)) (r * r) 1 0 1.

Definition sin_abs (ax : number) : number :=
  if is_finite ax then sin_sum (reduce ax) else nan.

Definition sin (x : number) : number :=
  if x <? 0 then - sin_abs (abs x)
  else if 0 <? x then sin_abs (abs x)
  else x.

Definition cos (x : number) : number :=
  if is_finite x then cos_sum (reduce (abs x)) else nan.

(** Arctangent of [t >= 0]: reciprocal above 1, two half-angle steps, then
    the sum of [t - t^3/3 + t^5/5 - ...]. *)
Fixpoint atan_sum (n : nat) (t2 pow k acc : number) : number :=
  match n with
  | O => acc
  | S n' =>
      let pow' := - (pow * t2) in
      atan_sum n' t2 pow' (k + 2) (acc + pow' / (k + 2))
  end.

Definition half_angle (t : number) : number := t / (1 + Math_sqrt (1 + t * t)).

Definition atan_small (t : number) : number :=
  let u := half_angle (half_angle t) in
  4 * atan_sum 14 (u * u) u 1 u.

Definition atan_pos (t : number) : number :=
  if 1 <? t then Math_PI / 2 - atan_small (1 / t) else atan_small t.

Definition atan (t : number) : number :=
  if t <? 0 then - atan_pos (- t) else atan_pos t.

Definition atan2 (y x : number) : number :=
  if is_nan x || is_nan y then nan
  else if 0 <? x then atan (y / x)
  else if x <? 0 then
    (if get_sign y then atan (y / x) - Math_PI else atan (y / x) + Math_PI)
  else if 0 <? y then Math_PI / 2
  else if y <? 0 then - (Math_PI / 2)
  else if get_sign x then (if get_sign y then - Math_PI else Math_PI)
  else y.

End RefHost.

(** ** The visit-booking form

    JavaScript strings are sequences of UTF-16 code units; they are lists of
    numbers here.  A regular expression that is anchored at both ends and has
    neither back-references nor look-around accepts a string exactly when
    the string is in its language, which is decided by derivatives. *)

Module Form.

Local Open Scope N_scope.

Definition codeUnit := N.
Definition jsstring := list codeUnit.

(** The code units of an ASCII literal. *)
Definition str (s : string) : jsstring :=
  List.map Ascii.N_of_ascii (list_ascii_of_string s).

Definition between (lo hi c : codeUnit) : bool := (lo <=? c) && (c <=? hi).

(** [\d] *)
Definition isDigit (c : codeUnit) : bool := between 48 57 c.

(** [a-zA-Z0-9] *)
Definition isAlnum (c : codeUnit) : bool :=
  between 97 122 c || between 65 90 c || isDigit c.

(** [a-zA-Z0-9-] *)
Definition isAlnumDash (c : codeUnit) : bool := isAlnum c || (c =? 45).

(** The class that opens [emailRegex]: letters, digits and the characters
    . ! # $ % & ' * + / = ? ^ _ ` { | } ~ - *)
Definition isLocalPart (c : codeUnit) : bool :=
  isAlnum c ||
  existsb (N.eqb c)
    [46; 33; 35; 36; 37; 38; 39; 42; 43; 47; 61; 63; 94; 95; 96;
     123; 124; 125; 126; 45].

(** White space and line terminators, as [String.prototype.trim] strips
    them. *)
Definition isWhiteSpace (c : codeUnit) : bool :=
  between 9 13 c ||
  existsb (N.eqb c) [32; 160; 5760; 8232; 8233; 8239; 8287; 12288; 65279] ||
  between 8192 8202 c.

Fixpoint trimStart (s : jsstring) : jsstring :=
  match s with
  | c :: s' => if isWhiteSpace c then trimStart s' else s
  | [] => []
  end.

Definition trim (s : jsstring) : jsstring :=
  rev (trimStart (rev (trimStart s))).

(** [ToBoolean] of a string. *)
Definition nonEmpty (s : jsstring) : bool :=
  match s with
  | [] => false
  | _ :: _ => true
  end.

(** Regular expressions over code-unit classes; [Upto n r] is [r{0,n}]. *)
Inductive regex :=
| Void
| Eps
| Class (p : codeUnit -> bool)
| Seq (r1 r2 : regex)
| Alt (r1 r2 : regex)
| Star (r : regex)
| Upto (n : nat) (r : regex).

(** The strings a regular expression accepts. *)
Inductive matches : regex -> jsstring -> Prop :=
| MEps : matches Eps []
| MClass p c : p c = true -> matches (Class p) [c]
| MSeq r1 r2 s1 s2 :
    matches r1 s1 -> matches r2 s2 -> matches (Seq r1 r2) (s1 ++ s2)
| MAltL r1 r2 s : matches r1 s -> matches (Alt r1 r2) s
| MAltR r1 r2 s : matches r2 s -> matches (Alt r1 r2) s
| MStarNil r : matches (Star r) []
| MStarApp r s1 s2 :
    matches r s1 -> matches (Star r) s2 -> matches (Star r) (s1 ++ s2)
| MUptoNil n r : matches (Upto n r) []
| MUptoApp n r s1 s2 :
    matches r s1 -> matches (Upto n r) s2 -> matches (Upto (S n) r) (s1 ++ s2).

Fixpoint nullable (r : regex) : bool :=
  match r with
  | Void => false
  | Eps => true
  | Class _ => false
  | Seq r1 r2 => nullable r1 && nullable r2
  | Alt r1 r2 => nullable r1 || nullable r2
  | Star _ => true
  | Upto _ _ => true
  end.

Fixpoint deriv (c : codeUnit) (r : regex) : regex :=
  match r with
  | Void => Void
  | Eps => Void
  | Class p => if p c then Eps else Void
  | Seq r1 r2 =>
      if nullable r1 then Alt (Seq (deriv c r1) r2) (deriv c r2)
      else Seq (deriv c r1) r2
  | Alt r1 r2 => Alt (deriv c r1) (deriv c r2)
  | Star r' => Seq (deriv c r') (Star r')
  | Upto n r' =>
      match n with
      | O => Void
      | S n' => Seq (deriv c r') (Upto n' r')
      end
  end.

(** Sequence and choice that drop what can no longer match. *)
Definition mkSeq (r1 r2 : regex) : regex :=
  match r1, r2 with
  | Void, _ => Void
  | _, Void => Void
  | Eps, _ => r2
  | _, _ => Seq r1 r2
  end.

Definition mkAlt (r1 r2 : regex) : regex :=
  match r1, r2 with
  | Void, _ => r2
  | _, Void => r1
  | _, _ => Alt r1 r2
  end.

(** Keeps derivatives small. *)
Fixpoint prune (r : regex) : regex :=
  match r with
  | Seq r1 r2 => mkSeq (prune r1) (prune r2)
  | Alt r1 r2 => mkAlt (prune r1) (prune r2)
  | _ => r
  end.

(** [/^r$/.test(s)] *)
Fixpoint test (r : regex) (s : jsstring) : bool :=
  match s with
  | [] => nullable r
  | c :: s' => test (prune (deriv c r)) s'
  end.

Definition Opt (r : regex) : regex := Alt Eps r.
Definition Plus (r : regex) : regex := Seq r (Star r).

(** [r{lo,hi}] for [lo <= hi]: [lo] copies, then up to [hi - lo] more. *)
Fixpoint Times (n : nat) (r : regex) : regex :=
  match n with
  | O => Eps
  | S n' => Seq r (Times n' r)
  end.

Definition Range (lo hi : nat) (r : regex) : regex :=
  Seq (Times lo r) (Upto (hi - lo) r).

(** [[a-zA-Z0-9](?:[a-zA-Z0-9-]{0,61}[a-zA-Z0-9])?] *)
Definition label : regex :=
  Seq (Class isAlnum) (Opt (Seq (Upto 61 (Class isAlnumDash)) (Class isAlnum))).

Definition emailRegex : regex :=
  Seq (Plus (Class isLocalPart))
      (Seq (Class (N.eqb 64))
           (Seq label (Star (Seq (Class (N.eqb 46)) label)))).

(** [/^\d{10,15}$/] *)
Definition digitsRegex : regex := Range 10 15 (Class isDigit).

(** [s.replace(/\D/g, '')] *)
Definition stripNonDigits (s : jsstring) : jsstring := filter isDigit s.

Record FormState := mkForm {
  name : jsstring;
  email : jsstring;
  phone : jsstring
}.

(** A route parameter as [useLocalSearchParams] yields it:
    [string | string[] | undefined]. *)
Inductive SearchParam :=
| Missing
| Single (s : jsstring)
| Many (l : list jsstring).

(** [ToBoolean] of a route parameter; an array is truthy even when empty. *)
Definition present (p : SearchParam) : bool :=
  match p with
  | Missing => false
  | Single s => nonEmpty s
  | Many _ => true
  end.

(** The outcome of [validateForm]: [true], or [false] after the alert with
    the given title and message. *)
Inductive Validation :=
| Valid
| Invalid (title message : string).

Definition isValid (v : Validation) : bool :=
  match v with
  | Valid => true
  | Invalid _ _ => false
  end.

Local Open Scope string_scope.

Definition validateForm (form : FormState) (plotId : SearchParam) : Validation :=
  if negb (nonEmpty (trim (name form))) then
    Invalid "Validation Error" "Please enter your full name"
  else if negb (nonEmpty (trim (email form))) then
    Invalid "Validation Error" "Please enter your email address"
  else if negb (nonEmpty (trim (phone form))) then
    Invalid "Validation Error" "Please enter your phone number"
  else if negb (test emailRegex (email form)) then
    Invalid "Validation Error" "Please enter a valid email address"
  else
    let phoneDigits := stripNonDigits (phone form) in
    if (List.length phoneDigits <? 10)%nat || (10 <? List.length phoneDigits)%nat
    then
      Invalid "Validation Error" "Phone number must be between 10 and 15 digits"
    else if negb (test digitsRegex phoneDigits) then
      Invalid "Validation Error" "Phone number should contain digits only"
    else if negb (present plotId) then
      Invalid "Error" "Plot ID is missing"
    else Valid.

End Form.

(** ** Sample data

    A position on the equator and offices due north of it.  With the
    reference host the haversine distances come out as 499.99999999999994 m,
    200 m and 800 m. *)

Module Sample.

Definition here : LocationData := mkLocation 0 0 (Some 12).

Definition officeA : OfficeData :=
  mkOffice "A" "North depot" 0x1.26b0906e16d26p-8 0 None.

Definition officeB : OfficeData :=
  mkOffice "B" "Head office" 0x1.d780e7168aea6p-10 0 (Some 1000).

Definition officeC : OfficeData :=
  mkOffice "C" "Warehouse" 0x1.d780e7168aea4p-8 0 (Some 250).

(** An office whose configured radius is zero. *)
Definition officeZ : OfficeData :=
  mkOffice "Z" "Gate" 0x1.26b0906e16d26p-8 0 (Some 0).

(** An office record that came without coordinates: reading them gives
    [undefined], and the arithmetic on it NaN. *)
Definition officeN : OfficeData := mkOffice "N" "Unplaced" nan 0 None.

(** A position and an office nearly opposite to it on the globe. *)
Definition farSide : LocationData := mkLocation 8 (-172) (Some 12).

Definition officeFar : OfficeData := mkOffice "F" "Far side" (-8) 8 None.

Definition manager : User := mkUser "user_1" (Some "Asha"%string).

(** A loaded screen of a signed-in manager standing at [here]. *)
Definition screenWith (offices : list OfficeData) : Screen :=
  mkScreen (Some manager) true (Some here) offices false false false None
           (Some granted) 0.

(** A location service that grants access and reports a fix of the given
    accuracy at [here]. *)
Definition serviceReporting (acc : option number) : LocationService :=
  mkService (Some granted) (Some granted) (Some (mkCoords 0 0 acc)).

(** The state a fix of accuracy 2000 leaves behind on such a screen. *)
Definition afterCoarseFix : Screen :=
  fst (getLocation (serviceReporting (Some 2000)) (screenWith [officeA])).

(** A screen whose stored location carries an accuracy of 2000. *)
Definition coarseScreen (offices : list OfficeData) : Screen :=
  mkScreen (Some manager) true (Some (mkLocation 0 0 (Some 2000))) offices
           false false false None (Some granted) 0.

(** A booking form whose phone number carries a country code: twelve
    digits. *)
Definition visitForm : Form.FormState :=
  Form.mkForm (Form.str "Asha Rao") (Form.str "asha@example.com")
              (Form.str "+91 98765 43210").

(** The same form with the ten-digit national number. *)
Definition visitFormLocal : Form.FormState :=
  Form.mkForm (Form.str "Asha Rao") (Form.str "asha@example.com")
              (Form.str "98765 43210").

End Sample.

(** ** Keys of binary64 values

    A value that is not NaN is sent to a triple of integers, on which the
    comparison of floats is the lexicographic one: the sign class first
    (infinities outermost), then exponent and mantissa, both negated below
    zero. *)

Module FloatKey.

Local Open Scope Z_scope.

Definition key (x : spec_float) : option (Z * Z * Z) :=
  match x with
  | S754_nan => None
  | S754_infinity true => Some (-2, 0, 0)
  | S754_infinity false => Some (2, 0, 0)
  | S754_zero _ => Some (0, 0, 0)
  | S754_finite false m e => Some (1, e, Zpos m)
  | S754_finite true m e => Some (-1, - e, Zneg m)
  end.

Definition lexcmp (k k' : Z * Z * Z) : comparison :=
  let '(a, b, c) := k in
  let '(a', b', c') := k' in
  match a ?= a' with
  | Eq => match b ?= b' with
          | Eq => c ?= c'
          | r => r
          end
  | r => r
  end.

Definition lexlt (k k' : Z * Z * Z) : Prop :=
  let '(a, b, c) := k in
  let '(a', b', c') := k' in
  a < a' \/ (a = a' /\ (b < b' \/ (b = b' /\ c < c'))).

(** The key of a float, [None] on NaN. *)
Definition fkey (x : float) : option (Z * Z * Z) := key (Prim2SF x).

(** The decoded form of a finite value. *)
Definition SFfinite (x : spec_float) : bool :=
  match x with
  | S754_zero _ | S754_finite _ _ _ => true
  | _ => false
  end.

End FloatKey.

(** ** The attendance screen, continued: buttons, request, office fetch *)

(** [disabled={marking || !location || assignedOffices.length === 0}], the
    condition under which both action buttons are disabled. *)
Definition actionsDisabled (st : Screen) : bool :=
  marking st
  || negb (match location st with Some _ => true | None => false end)
  || Nat.eqb (List.length (assignedOffices st)) 0.

(** The body [proceedWithAttendance] posts to [/api/attendance]. *)
Record AttendanceRequest := mkAttendanceRequest {
  req_clerkId : string;
  req_latitude : number;
  req_longitude : number;
  req_accuracy : option number;
  req_timestamp : string;
  req_platform : string;
  req_deviceTimestamp : string;
  req_attendanceType : string
}.

(** The guard of [proceedWithAttendance] and the [requestBody] it builds;
    the two time stamps and the platform name come from the host. [None]
    when the guard shows its alert and returns. *)
Definition attendanceRequest (attendanceType timestamp1 platform timestamp2 : string)
    (st : Screen) : option AttendanceRequest :=
  match user st, location st, assignedOffices st with
  | Some u, Some loc, _ :: _ =>
      Some (mkAttendanceRequest (userId u) (lat loc) (lng loc) (accuracy loc)
              timestamp1 platform timestamp2 attendanceType)
  | _, _, _ => None
  end.

(** The parsed body of the answer to the assigned-offices request.  An
    error answer is taken to carry its [error] and [message] fields, when it
    has them, as strings; reading a field of [null] raises the engine's
    [TypeError], whose text is part of the input. *)
Inductive Body :=
| NotJson
| JsonNull (typeError : string)
| JsonFields (error message : option string)
| JsonArray (data : list OfficeData).

(** How the request ends: [fetch] or [res.text()] rejects (with the message
    of the error when it is an [Error]), or there is a status and a body. *)
Inductive Fetched :=
| FetchRejected (message : option string)
| FetchResponded (status : nat) (body : Body).

(** [res.ok] *)
Definition responseOk (status : nat) : bool :=
  Nat.leb 200 status && Nat.leb status 299.

(** The digits of a status code. *)
Definition decimal (n : nat) : string :=
  DecimalString.NilZero.string_of_uint (Nat.to_uint n).

(** [data.error] and [data.message] of a parsed body that is not [null]. *)
Definition bodyFields (b : Body) : option string * option string :=
  match b with
  | JsonFields e m => (e, m)
  | _ => (None, None)
  end.

(** The [errorMessage] thrown for a status that is not ok. *)
Definition statusErrorMessage (status : nat) (b : Body) : string :=
  let errorMessage :=
    or_text (fst (bodyFields b))
      (or_text (snd (bodyFields b))
         (String.append "HTTP error! Status: " (decimal status))) in
  if Nat.eqb status 404 then "No offices assigned to your account."
  else if Nat.eqb status 401 then "Authentication failed. Please sign in again."
  else if Nat.leb 500 status then "Server error. Please try again later."
  else errorMessage.

(** The [try] block of [fetchAssignedOffices] up to the parsed array, and
    the message its [catch] block reports. *)
Definition officesResponse (f : Fetched) : OfficesResponse :=
  match f with
  | FetchRejected (Some msg) => OfficesFailed msg
  | FetchRejected None => OfficesFailed "Failed to fetch office details."
  | FetchResponded status NotJson =>
      OfficesFailed "Invalid response format from server."
  | FetchResponded status body =>
      if negb (responseOk status) then
        match body with
        | JsonNull typeError => OfficesFailed typeError
        | _ => OfficesFailed (statusErrorMessage status body)
        end
      else
        match body with
        | JsonArray data => OfficesData data
        | _ => OfficesFailed "Invalid office data format."
        end
  end.

(** Whether a failed request comes with a text: an [Error] with an empty
    message leaves nothing to show. *)
Definition hasText (f : Fetched) : bool :=
  match f with
  | FetchRejected (Some msg) => negb (String.eqb msg "")
  | FetchResponded status (JsonNull typeError) =>
      responseOk status || negb (String.eqb typeError "")
  | _ => true
  end.

(** Whether the continuation of [fetchAssignedOffices] sets an error. *)
Definition officesFail (resp : OfficesResponse) : bool :=
  match resp with
  | OfficesFailed _ => true
  | OfficesData data => Nat.eqb (List.length data) 0
  end.

(** Whether [getLocation] ends without a location to store. *)
Definition locationFails (svc : LocationService) : bool :=
  match location (fst (getLocation svc (initialScreen None false))) with
  | Some _ => false
  | None => true
  end.


(** ** Submitting the visit-booking form *)

Module BookVisit.

Import Form.

Local Open Scope N_scope.

(** The request [handleSubmit] hands to [submitVisitRequest]; [date] and
    [time] are texts the host formats. *)
Record VisitRequestType := mkVisitRequest {
  visit_name : jsstring;
  visit_email : jsstring;
  visit_phone : jsstring;
  visit_date : string;
  visit_time : string;
  visit_plotId : option jsstring;
  visit_clerkId : option jsstring
}.

(** [Array.isArray(plotId) ? plotId[0] : plotId] *)
Definition firstPlotId (plotId : SearchParam) : option jsstring :=
  match plotId with
  | Missing => None
  | Single s => Some s
  | Many l => hd_error l
  end.

(** [clerkUserId || undefined], for [clerkUserId : string | null | undefined]. *)
Definition orUndefined (clerkUserId : option jsstring) : option jsstring :=
  match clerkUserId with
  | Some s => if nonEmpty s then Some s else None
  | None => None
  end.

(** What [String.prototype.toLowerCase] does to a code unit below 128. *)
Definition lowerAscii (c : codeUnit) : codeUnit :=
  if between 65 90 c then c + 32 else c.

Definition isAscii (c : codeUnit) : bool := c <? 128.

(** A property every character class of a regular expression has. *)
Fixpoint classes (Q : (codeUnit -> bool) -> Prop) (r : regex) : Prop :=
  match r with
  | Void => True
  | Eps => True
  | Class p => Q p
  | Seq r1 r2 => classes Q r1 /\ classes Q r2
  | Alt r1 r2 => classes Q r1 /\ classes Q r2
  | Star r' => classes Q r'
  | Upto _ r' => classes Q r'
  end.

(** The code units below 128, for checks by enumeration. *)
Definition asciiUnits : list codeUnit := List.map N.of_nat (seq 0 128).

(** How often [@] occurs in a string. *)
Definition atSigns (s : jsstring) : nat := count_occ N.eq_dec s 64.

Section Submit.

(** [String.prototype.toLowerCase], a function of the host. *)
Variable toLowerCase : jsstring -> jsstring.

(** [handleSubmit] up to its call of [submitVisitRequest]: the request it
    sends, or [None] when [validateForm] made it return. *)
Definition handleSubmit (form : FormState) (plotId : SearchParam)
    (date time : string) (clerkUserId : option jsstring)
    : option VisitRequestType :=
  if negb (isValid (validateForm form plotId)) then None
  else
    Some (mkVisitRequest (trim (name form))
                         (toLowerCase (trim (email form)))
                         (trim (phone form))
                         date time
                         (firstPlotId plotId)
                         (orUndefined clerkUserId)).

End Submit.

End BookVisit.


(** ** The bookings screen: the list of visits and their feedback forms *)

Module Bookings.

Import Form.

Local Open Scope string_scope.

Inductive Interest := Yes | No | Maybe.

(** An entry of [feedbackData] as it is at run time: a field is [None]
    where the object lacks it, which the spread of an entry that is not
    there brings about.  [purchaseInterest] can be [null] as well. *)
Record FeedbackState := mkFeedback {
  rating : option nat;
  experience : option jsstring;
  suggestions : option jsstring;
  purchaseInterest : option (option Interest);
  submitted : option bool
}.

(** [{}], and what spreading [undefined] contributes. *)
Definition noFields : FeedbackState := mkFeedback None None None None None.

Definition orElse {A : Type} (x y : option A) : option A :=
  match x with
  | Some v => Some v
  | None => y
  end.

(** [{ ...prev, ...data }] *)
Definition spread (prev data : FeedbackState) : FeedbackState :=
  mkFeedback (orElse (rating data) (rating prev))
             (orElse (experience data) (experience prev))
             (orElse (suggestions data) (suggestions prev))
             (orElse (purchaseInterest data) (purchaseInterest prev))
             (orElse (submitted data) (submitted prev)).

(** A [Record<string, A>]: the binding found first is the one written
    last. *)
Definition record (A : Type) : Type := list (string * A).

Fixpoint lookup {A : Type} (k : string) (m : record A) : option A :=
  match m with
  | [] => None
  | (k', v) :: m' => if String.eqb k k' then Some v else lookup k m'
  end.

(** [{ ...m, [k]: v }], and [m[k] = v]. *)
Definition set {A : Type} (k : string) (v : A) (m : record A) : record A :=
  (k, v) :: m.

(** A visit request as the screen reads it: [assignedManager] and
    [bookedBy] are [assignedManager?.clerkId] and [user?.clerkId],
    [feedback] is [!!booking.feedback].  The [email] of a booking is taken
    to be a string, as its type says. *)
Record VisitRequest := mkVisit {
  booking_id : string;
  booking_email : jsstring;
  assignedManager : option string;
  bookedBy : option string;
  feedback : bool
}.

(** What the hooks report: [useAuth], [useUser] and the network state. *)
Record Session := mkSession {
  isSignedIn : bool;
  userId : option string;
  userEmail : option jsstring;
  isOnline : bool
}.

(** The guard [!isSignedIn || !userId]: the user id when the guard lets
    through, [None] when it does not. *)
Definition signedInAs (s : Session) : option string :=
  if negb (isSignedIn s) then None
  else
    match userId s with
    | Some uid => if String.eqb uid "" then None else Some uid
    | None => None
    end.

Record Bookings := mkBookings {
  bookings : list VisitRequest;
  loading : bool;
  error : option string;
  expandedId : option string;
  feedbackData : record FeedbackState;
  submitting : record bool;
  refreshing : bool
}.

Definition initialBookings : Bookings :=
  mkBookings [] true None None [] [] false.

Definition setBookings (v : list VisitRequest) (st : Bookings) : Bookings :=
  mkBookings v (loading st) (error st) (expandedId st) (feedbackData st)
             (submitting st) (refreshing st).

Definition setLoading (v : bool) (st : Bookings) : Bookings :=
  mkBookings (bookings st) v (error st) (expandedId st) (feedbackData st)
             (submitting st) (refreshing st).

Definition setError (v : option string) (st : Bookings) : Bookings :=
  mkBookings (bookings st) (loading st) v (expandedId st) (feedbackData st)
             (submitting st) (refreshing st).

Definition setExpandedId (v : option string) (st : Bookings) : Bookings :=
  mkBookings (bookings st) (loading st) (error st) v (feedbackData st)
             (submitting st) (refreshing st).

Definition setFeedbackData (v : record FeedbackState) (st : Bookings)
    : Bookings :=
  mkBookings (bookings st) (loading st) (error st) (expandedId st) v
             (submitting st) (refreshing st).

Definition setSubmitting (v : record bool) (st : Bookings) : Bookings :=
  mkBookings (bookings st) (loading st) (error st) (expandedId st)
             (feedbackData st) v (refreshing st).

Definition setRefreshing (v : bool) (st : Bookings) : Bookings :=
  mkBookings (bookings st) (loading st) (error st) (expandedId st)
             (feedbackData st) (submitting st) v.

(** [===] on strings of code units. *)
Definition sameText (a b : jsstring) : bool :=
  if list_eq_dec N.eq_dec a b then true else false.

(** How [getVisitRequests] and what follows it in the [try] block end:
    with the array; with something thrown that is neither [null] nor
    [undefined], whose [message] may be missing; or with [null] or
    [undefined] thrown, that is, the request rejecting with one of them. *)
Inductive VisitsResponse :=
| VisitsFailed (message : option string)
| VisitsRejectedNull
| VisitsData (data : list VisitRequest).

(** The entry [fetchBookings] writes for a booking. *)
Definition blank (booking : VisitRequest) : FeedbackState :=
  mkFeedback (Some O) (Some []) (Some []) (Some None)
             (Some (feedback booking)).

Section Screen.

(** [String.prototype.toLowerCase], a function of the host. *)
Variable toLowerCase : jsstring -> jsstring.

(** The filter of [fetchBookings]: [isOwner || isAssigned || isUser]. *)
Definition isUserBooking (s : Session) (uid : string) (booking : VisitRequest)
    : bool :=
  let isOwner :=
    match userEmail s with
    | Some userEmail =>
        nonEmpty userEmail &&
        sameText (toLowerCase (booking_email booking)) (toLowerCase userEmail)
    | None => false
    end in
  let isAssigned :=
    match assignedManager booking with
    | Some clerkId => String.eqb clerkId uid
    | None => false
    end in
  let isUser :=
    match bookedBy booking with
    | Some clerkId => String.eqb clerkId uid
    | None => false
    end in
  isOwner || isAssigned || isUser.

(** The state [fetchBookings] leaves.  Its [catch] block reads
    [err.message] before anything else, which throws where [err] is [null]
    or [undefined]: then no error is set, and the [finally] block runs as
    in every case. *)
Definition fetchBookings (s : Session) (resp : VisitsResponse) (st : Bookings)
    : Bookings :=
  match signedInAs s with
  | None =>
      setLoading false
        (setError (Some "Please sign in to view your bookings.") st)
  | Some uid =>
      if negb (isOnline s) then
        setLoading false
          (setError (Some "No internet connection. Please try again later.")
                    st)
      else
        let st := setLoading true st in
        match resp with
        | VisitsData data =>
            let userBookings := filter (isUserBooking s uid) data in
            let st := setBookings userBookings st in
            let st := setFeedbackData
              (fold_left (fun acc booking =>
                            set (booking_id booking) (blank booking) acc)
                         userBookings []) st in
            setLoading false (setError None st)
        | VisitsFailed message =>
            setLoading false
              (setError
                 (Some (or_text message
                          "Failed to load bookings. Please try again.")) st)
        | VisitsRejectedNull => setLoading false st
        end
  end.

(** Whether the promise of [fetchBookings] is rejected: it is where the
    [catch] block throws. *)
Definition fetchBookingsRejects (s : Session) (resp : VisitsResponse) : bool :=
  match signedInAs s, resp with
  | Some _, VisitsRejectedNull => isOnline s
  | _, _ => false
  end.

(** [onRefresh]: [setRefreshing(false)] follows [await fetchBookings()]
    and is not reached where that promise is rejected. *)
Definition onRefresh (s : Session) (resp : VisitsResponse) (st : Bookings)
    : Bookings :=
  let st := fetchBookings s resp (setRefreshing true st) in
  if fetchBookingsRejects s resp then st else setRefreshing false st.

End Screen.

(** [toggleExpand] of the item with the given id. *)
Definition toggleExpand (id : string) (st : Bookings) : Bookings :=
  setExpandedId
    (match expandedId st with
     | Some prev => if String.eqb prev id then None else Some id
     | None => Some id
     end) st.

(** The [setFeedbackData] handed to the item with the given id:
    [{ ...prev, [id]: { ...prev[id], ...data } }]. *)
Definition setFeedbackDataOf (id : string) (data : FeedbackState)
    (st : Bookings) : Bookings :=
  let prev := feedbackData st in
  let prevEntry := match lookup id prev with
                   | Some e => e
                   | None => noFields
                   end in
  setFeedbackData (set id (spread prevEntry data) prev) st.

(** What the controls of [FeedbackForm] hand to [setFeedbackData]: one of
    the stars 1 to 5, a text, one of the three answers. *)
Inductive Edit :=
| PressStar (star : nat)
| ChangeExperience (text : jsstring)
| ChangeSuggestions (text : jsstring)
| PressInterest (option : Interest).

Definition stars : list nat := [1; 2; 3; 4; 5]%nat.

Definition offered (e : Edit) : bool :=
  match e with
  | PressStar star => existsb (Nat.eqb star) stars
  | _ => true
  end.

Definition partialOf (e : Edit) : FeedbackState :=
  match e with
  | PressStar star => mkFeedback (Some star) None None None None
  | ChangeExperience text => mkFeedback None (Some text) None None None
  | ChangeSuggestions text => mkFeedback None None (Some text) None None
  | PressInterest option => mkFeedback None None None (Some (Some option)) None
  end.

(** The argument of [submitFeedback]. *)
Record FeedbackPayload := mkPayload {
  visitRequestId : string;
  payload_rating : option nat;
  payload_experience : jsstring;
  payload_suggestions : jsstring;
  payload_purchaseInterest : option bool;
  payload_clerkId : string
}.

(** How [handleSubmitFeedback] goes on: it shows an alert and returns, it
    throws (on [trim] of a text that is not there), or it calls
    [submitFeedback]. *)
Inductive Submission :=
| Alerted (title message : string)
| Thrown
| Submits (payload : FeedbackPayload).

Definition incomplete : Submission :=
  Alerted "Incomplete Feedback" "Please fill all required fields to submit.".

(** [handleSubmitFeedback] up to its call of [submitFeedback]. *)
Definition handleSubmitFeedback (s : Session) (id : string) (st : Bookings)
    : Submission :=
  match signedInAs s with
  | None => Alerted "Error" "Please sign in to submit feedback."
  | Some uid =>
  if negb (isOnline s) then
    Alerted "Error" "No internet connection. Please try again later."
  else
    match lookup id (feedbackData st) with
    | None => incomplete
    | Some feedback =>
        if match rating feedback with
           | Some r => Nat.ltb r 1
           | None => false
           end then incomplete
        else
          match experience feedback with
          | None => Thrown
          | Some experience =>
              if negb (nonEmpty (trim experience)) then incomplete
              else
                match suggestions feedback with
                | None => Thrown
                | Some suggestions =>
                    if negb (nonEmpty (trim suggestions)) then incomplete
                    else
                      match purchaseInterest feedback with
                      | Some None => incomplete
                      | interest =>
                          Submits
                            (mkPayload id (rating feedback)
                               (trim experience) (trim suggestions)
                               (match interest with
                                | Some (Some Yes) => Some true
                                | Some (Some No) => Some false
                                | _ => None
                                end)
                               uid)
                      end
                end
          end
    end
  end.

(** The state once [handleSubmitFeedback] has called [submitFeedback]. *)
Definition submitStarted (id : string) (st : Bookings) : Bookings :=
  setSubmitting (set id true (submitting st)) st.

(** How [submitFeedback] settles: fulfilled; rejected with something that
    is neither [null] nor [undefined], whose [message] may be missing; or
    rejected with [null] or [undefined]. *)
Inductive SubmitResponse :=
| SubmitFulfilled
| SubmitRejected (message : option string)
| SubmitRejectedNull.

(** The state once [submitFeedback] has settled and the rest of
    [handleSubmitFeedback] has run; its [finally] block runs in every
    case. *)
Definition submitSettled (resp : SubmitResponse) (id : string) (st : Bookings)
    : Bookings :=
  let st :=
    match resp with
    | SubmitFulfilled =>
        setExpandedId None
          (setFeedbackDataOf id (mkFeedback None None None None (Some true))
                             st)
    | _ => st
    end in
  setSubmitting (set id false (submitting st)) st.



(** The state once [cancelVisitRequest], called from the confirmation of
    [handleCancelVisit], is fulfilled. *)
Definition visitCancelled (id : string) (st : Bookings) : Bookings :=
  setBookings
    (filter (fun booking => negb (String.eqb (booking_id booking) id))
            (bookings st)) st.

(** An entry that has all its fields, with a rating of at most five. *)
Definition complete (f : FeedbackState) : bool :=
  match rating f, experience f, suggestions f, purchaseInterest f,
        submitted f with
  | Some r, Some _, Some _, Some _, Some _ => Nat.leb r 5
  | _, _, _, _, _ => false
  end.

(** The booking of a list that comes last among those with a given id. *)
Definition lastWith (id : string) (l : list VisitRequest)
    : option VisitRequest :=
  find (fun booking => String.eqb id (booking_id booking)) (rev l).

(** Every listed booking has a complete entry. *)
Definition entriesComplete (st : Bookings) : Prop :=
  forall booking,
    In booking (bookings st) ->
    exists f,
      lookup (booking_id booking) (feedbackData st) = Some f /\
      complete f = true.

Section Steps.

Variable toLowerCase : jsstring -> jsstring.

(** The updates of the screen's state.  Every control is taken to be
    usable at every time and for every id, which covers what the rendered
    list offers. *)
Inductive step : Bookings -> Bookings -> Prop :=
| step_fetchBookings s resp st :
    step st (fetchBookings toLowerCase s resp st)
| step_onRefresh s resp st :
    step st (onRefresh toLowerCase s resp st)
| step_toggleExpand id st :
    step st (toggleExpand id st)
| step_edit id e st :
    offered e = true ->
    step st (setFeedbackDataOf id (partialOf e) st)
| step_submitStarted s id st payload :
    handleSubmitFeedback s id st = Submits payload ->
    step st (submitStarted id st)
| step_submitSettled resp id st :
    step st (submitSettled resp id st)
| step_visitCancelled id st :
    step st (visitCancelled id st).

Inductive reachable : Bookings -> Prop :=
| reachable_mount : reachable initialBookings
| reachable_step st st' : reachable st -> step st st' -> reachable st'.

End Steps.

End Bookings.


(** ** The manager's dashboard: [loadData] *)

Module Dashboard.

Local Open Scope string_scope.

Record DashboardStats := mkStats {
  projects : nat;
  plots : nat;
  availablePlots : nat;
  visitRequests : nat;
  pendingVisits : nat;
  avgRating : number;
  recentSales : nat
}.

Definition noStats : DashboardStats := mkStats 0 0 0 0 0 0%float 0.

(** An element of the plots array that is not [null] or [undefined]:
    [status] is [None] where the element has none. *)
Record Plot := mkPlot {
  plot_status : option string;
  createdAt : option string
}.

Record VisitRequest := mkVisitRequest {
  visit_status : option string
}.

(** How one of the four requests settles: rejected, fulfilled with a value
    that is not an array, or fulfilled with an array.  An element is [None]
    where the array holds [null] or [undefined]. *)
Inductive Settled (A : Type) :=
| Rejected
| FulfilledOther
| FulfilledArray (items : list (option A)).

Arguments Rejected {A}.
Arguments FulfilledOther {A}.
Arguments FulfilledArray {A} items.

(** [status === 'fulfilled' && Array.isArray(value) ? value : []] *)
Definition safeData {A : Type} (r : Settled A) : list (option A) :=
  match r with
  | FulfilledArray items => items
  | _ => []
  end.

Record Dashboard := mkDashboard {
  loading : bool;
  refreshing : bool;
  error : option string;
  stats : DashboardStats
}.

Definition initialDashboard : Dashboard :=
  mkDashboard true false None noStats.

(** [s.includes(sub)] *)
Definition includes (sub s : string) : bool :=
  match String.index 0 sub s with
  | Some _ => true
  | None => false
  end.

(** The message the [catch] block of [loadData] sets, from the [message]
    of what was thrown. *)
Definition criticalMessage (message : string) : string :=
  if negb (String.eqb message "") && includes "Network request failed" message
  then "Network issue: Could not connect to the server. Please check your internet connection."
  else if negb (String.eqb message "") then message
  else "Failed to load dashboard data. Please check your network connection.".

(** The [map] over the plots, which reads [p.status] of every element and
    throws on one that is [null] or [undefined]: [None] then. *)
Fixpoint mapPlots (items : list (option Plot)) : option (list Plot) :=
  match items with
  | [] => Some []
  | None :: _ => None
  | Some p :: rest =>
      match mapPlots rest with
      | Some l =>
          Some (mkPlot (match plot_status p with
                        | Some s => if String.eqb s "ADVANCE" then Some "BOOKED"
                                    else Some s
                        | None => None
                        end) (createdAt p) :: l)
      | None => None
      end
  end.

Definition hasStatus (expected : string) (status : option string) : bool :=
  match status with
  | Some s => String.eqb s expected
  | None => false
  end.

(** The length of an array as a number. *)
Definition lengthOf {A : Type} (l : list A) : number :=
  PrimFloat.of_uint63 (Uint63.of_Z (Z.of_nat (List.length l))).

Section LoadData.

(** [new Date(s).getTime()], [NaN] for a text that is no date. *)
Variable parseDate : string -> number.

(** [x => parseFloat(x.toFixed(1))] *)
Variable toFixed1 : number -> number.

(** The state [loadData] leaves, which does not depend on the state
    before; [sevenDaysAgo] is the time value the host computes, [typeError]
    the message of the engine's [TypeError] for reading a property of
    [null]. *)
Definition loadData (currentUserId : option string) (sevenDaysAgo : number)
    (typeError : string)
    {Project : Type}
    (projectsResult : Settled Project)
    (plotsResult : Settled Plot)
    (visitsResult : Settled VisitRequest)
    (feedbackResult : Settled (option number)) : Dashboard :=
  let feedbackResult :=
    match currentUserId with
    | Some id => if String.eqb id "" then FulfilledArray [] else feedbackResult
    | None => FulfilledArray []
    end in
  match mapPlots (safeData plotsResult) with
  | None =>
      mkDashboard false false (Some (criticalMessage typeError)) noStats
  | Some safePlotsData =>
      let safeProjectsData := safeData projectsResult in
      let safeVisitsData := safeData visitsResult in
      let safeFeedbackData := safeData feedbackResult in
      let availablePlots :=
        List.length
          (filter (fun p => hasStatus "AVAILABLE" (plot_status p))
                  safePlotsData) in
      let pendingVisits :=
        List.length
          (filter (fun v => match v with
                            | Some v => hasStatus "PENDING" (visit_status v)
                            | None => false
                            end) safeVisitsData) in
      let avgRating :=
        if Nat.ltb 0 (List.length safeFeedbackData) then
          (fold_left (fun sum f =>
                        let rating := match f with
                                      | Some (Some rating) => rating
                                      | _ => 0
                                      end in
                        sum + rating) safeFeedbackData 0
           / lengthOf safeFeedbackData)%float
        else 0%float in
      let recentSales :=
        List.length
          (filter (fun p =>
                     if negb (hasStatus "SOLD" (plot_status p)) then false
                     else
                       match createdAt p with
                       | None => false
                       | Some created =>
                           if String.eqb created "" then false
                           else (sevenDaysAgo <=? parseDate created)%float
                       end) safePlotsData) in
      mkDashboard false false None
        (mkStats (List.length safeProjectsData) (List.length safePlotsData)
                 availablePlots (List.length safeVisitsData) pendingVisits
                 (toFixed1 avgRating) recentSales)
  end.

End LoadData.

End Dashboard.


(** ** The guest's home page: locations and the project filter *)

Module Home.

Import Form.

(** A project as the page reads it; a field is [None] where the project
    has none. *)
Record ProjectWithLocation := mkProject {
  project_name : option jsstring;
  description : option jsstring;
  city : option jsstring;
  state : option jsstring;
  location : option jsstring
}.

(** [x || d] on texts. *)
Definition orText (x : option jsstring) (d : jsstring) : jsstring :=
  match x with
  | Some s => if nonEmpty s then s else d
  | None => d
  end.

(** [p.city || p.location || ''] *)
Definition cityOrLocation (p : ProjectWithLocation) : jsstring :=
  orText (city p) (orText (location p) []).

(** [Array.from(new Set(xs))]: a value is added where the set does not
    have it yet, and the set keeps the order in which values were added. *)
Definition fromSet (xs : list jsstring) : list jsstring :=
  fold_left (fun set x =>
               if existsb (Bookings.sameText x) set then set else set ++ [x])
            xs [].

Definition locations (projects : list ProjectWithLocation) : list jsstring :=
  fromSet (filter nonEmpty (List.map cityOrLocation projects)).

Fixpoint startsWith (sub s : jsstring) : bool :=
  match sub, s with
  | [], _ => true
  | _ :: _, [] => false
  | c :: sub', d :: s' => N.eqb c d && startsWith sub' s'
  end.

(** [s.includes(sub)] *)
Fixpoint includes (sub s : jsstring) : bool :=
  startsWith sub s ||
  match s with
  | [] => false
  | _ :: s' => includes sub s'
  end.

(** [field === selected], for a field that may be missing. *)
Definition isText (field : option jsstring) (selected : jsstring) : bool :=
  match field with
  | Some s => Bookings.sameText s selected
  | None => false
  end.

Section Filter.

(** [String.prototype.toLowerCase], a function of the host. *)
Variable toLowerCase : jsstring -> jsstring.

(** [field?.toLowerCase().includes(searchQuery.toLowerCase())] as a
    condition. *)
Definition fieldMatches (searchQuery : jsstring) (field : option jsstring)
    : bool :=
  match field with
  | Some s => includes (toLowerCase searchQuery) (toLowerCase s)
  | None => false
  end.

Definition filteredProjects (searchQuery selectedLocation : jsstring)
    (projects : list ProjectWithLocation) : list ProjectWithLocation :=
  filter (fun project =>
            let matchesSearch :=
              fieldMatches searchQuery (project_name project) ||
              fieldMatches searchQuery (description project) ||
              fieldMatches searchQuery (city project) ||
              fieldMatches searchQuery (state project) ||
              fieldMatches searchQuery (location project) in
            let matchesLocation :=
              if nonEmpty selectedLocation then
                isText (city project) selectedLocation ||
                isText (location project) selectedLocation
              else true in
            matchesSearch && matchesLocation)
         projects.

End Filter.

End Home.


(** ** More sample data *)

Module SampleMore.

Import Sample Form.

(** The screen after the offices and a fix of accuracy 12 arrived. *)
Definition arrived : Screen :=
  fst (getLocation (serviceReporting (Some 12))
         (fetchAssignedOffices (OfficesData [officeA])
            (initialScreen (Some manager) true))).

Import BookVisit.

(** A form typed with capital letters and spaces around the entries. *)
Definition typed : FormState :=
  mkForm (str " Asha Rao ") (str "Asha.Rao@Example.COM")
         (str " (987) 654-3210 ").

Import Bookings.

Local Open Scope string_scope.

Definition visitor : Session :=
  mkSession true (Some "user_7") (Some (str "Asha@Example.com")) true.

Definition visits : list VisitRequest :=
  [mkVisit "v1" (str "asha@example.com") None None false;
   mkVisit "v2" (str "ravi@example.com") None (Some "user_7") true;
   mkVisit "v3" (str "ravi@example.com") None (Some "user_9") false].

(** The screen after the visits were fetched and the form of [v1] filled
    in. *)
Definition filled : Bookings :=
  setFeedbackDataOf "v1" (partialOf (PressInterest Maybe))
    (setFeedbackDataOf "v1" (partialOf (ChangeSuggestions (str "None ")))
       (setFeedbackDataOf "v1" (partialOf (ChangeExperience (str " Good")))
          (setFeedbackDataOf "v1" (partialOf (PressStar 4%nat))
             (fetchBookings (List.map BookVisit.lowerAscii) visitor
                            (VisitsData visits) initialBookings)))).

Import Home.

(** Projects with a city, with a location, with both and with neither. *)
Definition sampleProjects : list ProjectWithLocation :=
  [mkProject (Some (str "Green Acres")) None (Some (str "Chennai")) None
             (Some (str "Adyar"));
   mkProject (Some (str "Lake View")) None None None (Some (str "Adyar"));
   mkProject (Some (str "Hill Top")) None (Some (str "Chennai")) None None;
   mkProject (Some (str "Nowhere")) None None None None].

End SampleMore.

(** ** The order of binary64 values

    [<?] and [<=?] on primitive floats are specified by [SFcompare] on their
    decoded form, which is the lexicographic comparison of keys; the order
    facts the resolver needs are read off that. *)

Module FloatOrder.

Import FloatKey.

Local Open Scope Z_scope.

Lemma lexcmp_spec k k' :
  match lexcmp k k' with
  | Lt => lexlt k k'
  | Eq => k = k'
  | Gt => lexlt k' k
  end.
Proof.
  destruct k as [[a b] c], k' as [[a' b'] c']; unfold lexcmp, lexlt.
  destruct (Z.compare_spec a a'); [|lia..].
  destruct (Z.compare_spec b b'); [|lia..].
  destruct (Z.compare_spec c c'); [|lia..].
  congruence.
Qed.

Lemma lexlt_trans k1 k2 k3 : lexlt k1 k2 -> lexlt k2 k3 -> lexlt k1 k3.
Proof.
  destruct k1 as [[a1 b1] c1], k2 as [[a2 b2] c2], k3 as [[a3 b3] c3].
  unfold lexlt; lia.
Qed.

Lemma lexlt_irrefl k : ~ lexlt k k.
Proof. destruct k as [[a b] c]; unfold lexlt; lia. Qed.

Lemma lexlt_total k k' : lexlt k k' \/ k = k' \/ lexlt k' k.
Proof.
  generalize (lexcmp_spec k k'); destruct (lexcmp k k'); auto.
Qed.

Lemma SFcompare_key x y :
  SFcompare x y =
  match key x, key y with
  | Some k, Some k' => Some (lexcmp k k')
  | _, _ => None
  end.
Proof.
  destruct x as [[|]|[|]| |[|] m e], y as [[|]|[|]| |[|] m' e'];
    try reflexivity.
  cbn. rewrite Z.compare_opp, (Z.compare_antisym e' e).
  destruct (e' ?= e); reflexivity.
Qed.

Lemma ltb_key x y :
  (x <? y)%float = true <->
  exists k k', fkey x = Some k /\ fkey y = Some k' /\ lexlt k k'.
Proof.
  rewrite ltb_spec; unfold SFltb, fkey; rewrite SFcompare_key.
  destruct (key (Prim2SF x)) as [k|], (key (Prim2SF y)) as [k'|];
    try (split; [discriminate | intros (? & ? & ? & ? & _); discriminate]).
  generalize (lexcmp_spec k k'); destruct (lexcmp k k'); intros H; split;
    try discriminate; try (intros _; exists k, k'; now auto);
    try (intros _; reflexivity).
  - intros (k1 & k2 & E1 & E2 & L); injection E1 as <-; injection E2 as <-.
    subst; now apply lexlt_irrefl in L.
  - intros (k1 & k2 & E1 & E2 & L); injection E1 as <-; injection E2 as <-.
    destruct (lexlt_irrefl _ (lexlt_trans _ _ _ L H)).
Qed.

Lemma leb_key x y :
  (x <=? y)%float = true <->
  exists k k', fkey x = Some k /\ fkey y = Some k' /\ (lexlt k k' \/ k = k').
Proof.
  rewrite leb_spec; unfold SFleb, fkey; rewrite SFcompare_key.
  destruct (key (Prim2SF x)) as [k|], (key (Prim2SF y)) as [k'|];
    try (split; [discriminate | intros (? & ? & ? & ? & _); discriminate]).
  generalize (lexcmp_spec k k'); destruct (lexcmp k k'); intros H; split;
    try discriminate; try (intros _; exists k, k'; now auto);
    try (intros _; reflexivity).
  intros (k1 & k2 & E1 & E2 & L); injection E1 as <-; injection E2 as <-.
  destruct L as [L | ->].
  - destruct (lexlt_irrefl _ (lexlt_trans _ _ _ L H)).
  - now apply lexlt_irrefl in H.
Qed.

Lemma is_nan_key x : is_nan x = false <-> exists k, fkey x = Some k.
Proof.
  unfold is_nan, fkey; rewrite eqb_spec; unfold SFeqb; rewrite SFcompare_key.
  destruct (key (Prim2SF x)) as [k|].
  - generalize (lexcmp_spec k k); destruct (lexcmp k k); intros H;
      cbn [negb]; split; eauto; try discriminate; intros _; exfalso;
      eapply lexlt_irrefl; eauto.
  - cbn [negb]; split; [discriminate | intros (? & ?); discriminate].
Qed.

Local Close Scope Z_scope.

Lemma ltb_irrefl x : (x <? x) = false.
Proof.
  destruct (x <? x) eqn:E; [|reflexivity].
  apply ltb_key in E as (k & k' & H1 & H2 & L).
  rewrite H1 in H2; injection H2 as <-. now apply lexlt_irrefl in L.
Qed.

Lemma ltb_trans x y z : (x <? y) = true -> (y <? z) = true -> (x <? z) = true.
Proof.
  rewrite !ltb_key.
  intros (k1 & k2 & H1 & H2 & L) (k2' & k3 & H2' & H3 & L').
  rewrite H2 in H2'; injection H2' as <-.
  exists k1, k3; eauto using lexlt_trans.
Qed.

Lemma ltb_leb_trans x y z :
  (x <? y) = true -> (y <=? z) = true -> (x <? z) = true.
Proof.
  rewrite !ltb_key, leb_key.
  intros (k1 & k2 & H1 & H2 & L) (k2' & k3 & H2' & H3 & L').
  rewrite H2 in H2'; injection H2' as <-.
  exists k1, k3; destruct L' as [L' | <-]; eauto using lexlt_trans.
Qed.

Lemma leb_trans x y z :
  (x <=? y) = true -> (y <=? z) = true -> (x <=? z) = true.
Proof.
  rewrite !leb_key.
  intros (k1 & k2 & H1 & H2 & L) (k2' & k3 & H2' & H3 & L').
  rewrite H2 in H2'; injection H2' as <-.
  exists k1, k3; destruct L as [L | <-], L' as [L' | <-];
    eauto using lexlt_trans.
Qed.

Lemma ltb_leb x y : (x <? y) = true -> (x <=? y) = true.
Proof.
  rewrite ltb_key, leb_key. intros (k & k' & ? & ? & ?); eauto 6.
Qed.

Lemma leb_refl x : is_nan x = false -> (x <=? x) = true.
Proof.
  rewrite is_nan_key, leb_key. intros (k & ?); eauto 6.
Qed.

(** On numbers, [not (x < y)] is [y <= x]. *)
Lemma not_ltb_leb x y :
  is_nan x = false -> is_nan y = false -> (x <? y) = false -> (y <=? x) = true.
Proof.
  rewrite !is_nan_key, leb_key. intros (k & Hk) (k' & Hk') H.
  exists k', k; repeat split; auto.
  destruct (lexlt_total k k') as [L | [-> | L]]; auto.
  assert (E : (x <? y) = true) by (apply ltb_key; eauto).
  congruence.
Qed.

Lemma ltb_not_leb x y : (x <? y) = true -> (y <=? x) = false.
Proof.
  intros H. destruct (y <=? x) eqn:E; [|reflexivity].
  generalize (ltb_leb_trans _ _ _ H E). now rewrite ltb_irrefl.
Qed.

Lemma leb_not_ltb x y : (x <=? y) = true -> (y <? x) = false.
Proof.
  intros H. destruct (y <? x) eqn:E; [|reflexivity].
  now rewrite (ltb_not_leb _ _ E) in H.
Qed.

(** Anything below some value is a number. *)
Lemma ltb_is_number x y : (x <? y) = true -> is_nan x = false.
Proof.
  rewrite ltb_key, is_nan_key. intros (k & _ & ? & _); eauto.
Qed.

Lemma leb_is_number_r x y : (x <=? y) = true -> is_nan y = false.
Proof.
  rewrite leb_key, is_nan_key. intros (_ & k & _ & ? & _); eauto.
Qed.

Lemma ltb_is_number_r x y : (x <? y) = true -> is_nan y = false.
Proof.
  rewrite ltb_key, is_nan_key. intros (_ & k & _ & ? & _); eauto.
Qed.

(** Every number is at most [Infinity]. *)
Lemma leb_infinity x : is_nan x = false -> (x <=? infinity) = true.
Proof.
  intros H. apply is_nan_key in H as (k & Hk). unfold fkey in Hk.
  rewrite leb_spec. change (Prim2SF infinity) with (S754_infinity false).
  destruct (Prim2SF x) as [s|[|]| |[|] m e]; try discriminate; reflexivity.
Qed.

End FloatOrder.

(** ** Sign symmetry of binary64 arithmetic

    Rounding to nearest-even works on magnitudes, so negating an operand of
    a product or quotient negates the result, and swapping the operands of a
    difference negates it unless it is the zero of an exact cancellation. *)

Module FloatArith.

Import FloatKey.

Lemma binary_round_aux_opp p em s m e l :
  binary_round_aux p em (negb s) m e l = SFopp (binary_round_aux p em s m e l).
Proof.
  unfold binary_round_aux.
  destruct (shr_fexp p em m e l) as [mrs' e'].
  destruct (shr_fexp p em _ e' loc_Exact) as [mrs'' e''].
  destruct (shr_m mrs''); try reflexivity.
  destruct (Z.leb e'' (em - p)); reflexivity.
Qed.

Lemma binary_round_opp p em s m e :
  binary_round p em (negb s) m e = SFopp (binary_round p em s m e).
Proof.
  unfold binary_round. destruct (shl_align m e _) as [mz ez].
  apply binary_round_aux_opp.
Qed.

Lemma SFopp_involutive x : SFopp (SFopp x) = x.
Proof. destruct x; cbn; rewrite ?negb_involutive; reflexivity. Qed.

Lemma SFmul_comm p em x y : SFmul p em x y = SFmul p em y x.
Proof.
  destruct x as [s|s| |s m e], y as [s'|s'| |s' m' e']; cbn;
    rewrite ?(xorb_comm s s'); try reflexivity.
  now rewrite Pos.mul_comm, Z.add_comm.
Qed.

Lemma SFmul_opp_l p em x y : SFmul p em (SFopp x) y = SFopp (SFmul p em x y).
Proof.
  destruct x as [s|s| |s m e], y as [s'|s'| |s' m' e']; cbn;
    rewrite <- ?negb_xorb_l; try reflexivity.
  apply binary_round_aux_opp.
Qed.

Lemma SFdiv_opp_l p em x y : SFdiv p em (SFopp x) y = SFopp (SFdiv p em x y).
Proof.
  destruct x as [s|s| |s m e], y as [s'|s'| |s' m' e']; cbn;
    rewrite <- ?negb_xorb_l; try reflexivity.
  destruct (SFdiv_core_binary p em (Z.pos m) e (Z.pos m') e') as [[mz ez] lz].
  apply binary_round_aux_opp.
Qed.

Lemma binary_normalize_opp p em m e :
  binary_normalize p em (- m) e false = binary_normalize p em m e false \/
  binary_normalize p em (- m) e false = SFopp (binary_normalize p em m e false).
Proof.
  destruct m as [|m|m]; cbn.
  - now left.
  - right. apply (binary_round_opp p em false).
  - right. now rewrite (binary_round_opp p em false), SFopp_involutive.
Qed.

(** Swapping the operands of a difference. *)
Lemma SFsub_swap p em x y :
  SFsub p em y x = SFsub p em x y \/ SFsub p em y x = SFopp (SFsub p em x y).
Proof.
  destruct x as [[|]|[|]| |s m e], y as [[|]|[|]| |s' m' e']; cbn;
    try (now left); try (now right);
    try (right; now rewrite negb_involutive).
  rewrite (Z.min_comm e' e).
  set (a := cond_Zopp s (Z.pos (fst (shl_align m e (Z.min e e'))))).
  set (b := cond_Zopp s' (Z.pos (fst (shl_align m' e' (Z.min e e'))))).
  replace (b - a)%Z with (- (a - b))%Z by lia.
  apply binary_normalize_opp.
Qed.

Lemma SFsub_diag p em x :
  match x with S754_zero _ | S754_finite _ _ _ => True | _ => False end ->
  SFsub p em x x = S754_zero false.
Proof.
  destruct x as [[|]|s| |s m e]; cbn; try tauto; intros _; try reflexivity.
  now rewrite Z.sub_diag.
Qed.

Local Open Scope float_scope.

Lemma mul_comm x y : x * y = y * x.
Proof. apply Prim2SF_inj. rewrite !mul_spec. apply SFmul_comm. Qed.

Lemma opp_involutive x : - - x = x.
Proof. apply Prim2SF_inj. rewrite !opp_spec. apply SFopp_involutive. Qed.

Lemma mul_opp_l x y : (- x) * y = - (x * y).
Proof.
  apply Prim2SF_inj. rewrite opp_spec, !mul_spec, opp_spec. apply SFmul_opp_l.
Qed.

Lemma div_opp_l x y : (- x) / y = - (x / y).
Proof.
  apply Prim2SF_inj. rewrite opp_spec, !div_spec, opp_spec. apply SFdiv_opp_l.
Qed.

Lemma mul_opp_opp x : (- x) * (- x) = x * x.
Proof.
  rewrite mul_opp_l, (mul_comm x (- x)), mul_opp_l. apply opp_involutive.
Qed.

Lemma sub_swap x y : y - x = x - y \/ y - x = - (x - y).
Proof.
  destruct (SFsub_swap prec emax (Prim2SF x) (Prim2SF y)) as [H | H];
    [left | right]; apply Prim2SF_inj; rewrite ?opp_spec, !sub_spec; exact H.
Qed.

Lemma is_finite_spec x : is_finite x = SFfinite (Prim2SF x).
Proof.
  unfold is_finite, is_nan, is_infinity.
  rewrite !eqb_spec, abs_spec.
  change (Prim2SF infinity) with (S754_infinity false).
  destruct (Prim2SF x) as [s|s| |s m e]; cbn; try reflexivity.
  - destruct s; reflexivity.
  - destruct s; cbn; now rewrite Z.compare_refl, Pos.compare_cont_refl.
Qed.

Lemma sub_diag x : is_finite x = true -> x - x = 0.
Proof.
  rewrite is_finite_spec. intros H. apply Prim2SF_inj. rewrite sub_spec.
  change (Prim2SF 0) with (S754_zero false).
  apply SFsub_diag. destruct (Prim2SF x); try discriminate; exact I.
Qed.

(** A finite value times zero is a zero, of either sign. *)
Lemma mul_zero_r x :
  is_finite x = true -> x * 0 = 0 \/ x * 0 = -0.
Proof.
  rewrite is_finite_spec. intros H.
  assert (E : exists s, Prim2SF (x * 0) = S754_zero s).
  { rewrite mul_spec. change (Prim2SF 0) with (S754_zero false).
    destruct (Prim2SF x); try discriminate; cbn; eauto. }
  destruct E as [[|] E]; [right | left]; apply Prim2SF_inj; rewrite E;
    reflexivity.
Qed.

Lemma mul_opp_r x y : x * (- y) = - (x * y).
Proof. now rewrite (mul_comm x (- y)), mul_opp_l, (mul_comm y x). Qed.

Lemma abs_opp x : abs (- x) = abs x.
Proof.
  apply Prim2SF_inj. rewrite !abs_spec, opp_spec.
  now destruct (Prim2SF x).
Qed.

Lemma ltb_opp_zero x : (- x <? 0) = (0 <? x).
Proof.
  rewrite !ltb_spec, opp_spec. change (Prim2SF 0) with (S754_zero false).
  now destruct (Prim2SF x) as [s|[|]| |[|] m e].
Qed.

Lemma ltb_zero_opp x : (0 <? - x) = (x <? 0).
Proof.
  rewrite !ltb_spec, opp_spec. change (Prim2SF 0) with (S754_zero false).
  now destruct (Prim2SF x) as [s|[|]| |[|] m e].
Qed.

End FloatArith.

(** ** Squares of values in [[-1, 1]] do not overflow

    The product of two binary64 values is rounded from the exact product of
    the mantissas; when both factors are at most 1 in magnitude, the rounded
    exponent stays far below the overflow threshold. *)

Module FloatRound.

Import FloatKey.

Local Open Scope Z_scope.

Lemma digits2_pos_bounds p :
  2 ^ (Z.pos (digits2_pos p) - 1) <= Z.pos p < 2 ^ Z.pos (digits2_pos p).
Proof.
  induction p as [p IH | p IH |]; cbn [digits2_pos].
  - rewrite Pos2Z.inj_succ, Z.pow_succ_r by lia.
    replace (Z.succ (Z.pos (digits2_pos p)) - 1) with
      (Z.succ (Z.pos (digits2_pos p) - 1)) by lia.
    rewrite Z.pow_succ_r by lia. lia.
  - rewrite Pos2Z.inj_succ, Z.pow_succ_r by lia.
    replace (Z.succ (Z.pos (digits2_pos p)) - 1) with
      (Z.succ (Z.pos (digits2_pos p) - 1)) by lia.
    rewrite Z.pow_succ_r by lia. lia.
  - cbn. lia.
Qed.

Lemma Zdigits2_le x k : 0 <= x -> 0 <= k -> x < 2 ^ k -> Zdigits2 x <= k.
Proof.
  intros Hx Hk H. destruct x as [|p|p]; cbn; [lia| |lia].
  destruct (digits2_pos_bounds p) as [L _].
  assert (Z.pos (digits2_pos p) - 1 < k); [|lia].
  apply (Z.pow_lt_mono_r_iff 2); lia.
Qed.

(** A property kept by [f] is kept by its iteration. *)
Lemma iter_pos_invariant {A} (P : A -> Prop) (f : A -> A) :
  (forall x, P x -> P (f x)) -> forall p x, P x -> P (iter_pos f p x).
Proof.
  intros Hf. induction p as [p IH | p IH |]; intros x Hx; cbn; auto.
Qed.

Lemma shr_1_bounds M r : 0 <= shr_m r <= M -> 0 <= shr_m (shr_1 r) <= M.
Proof.
  destruct r as [m rb sb]. cbn [shr_m shr_1]. intros H.
  destruct m as [|[p|p|]|[p|p|]]; cbn [shr_m]; lia.
Qed.

Lemma shr_bounds M r e n :
  0 <= shr_m r <= M ->
  0 <= shr_m (fst (shr r e n)) <= M /\ snd (shr r e n) <= Z.max e (e + n).
Proof.
  intros H. destruct n as [|p|p]; cbn [shr fst snd]; try (split; [exact H | lia]).
  split; [|lia].
  apply (iter_pos_invariant (fun r => 0 <= shr_m r <= M)); auto.
  intros x. apply shr_1_bounds.
Qed.

Lemma round_nearest_even_bounds m l :
  0 <= m -> 0 <= round_nearest_even m l <= m + 1.
Proof.
  intros H. destruct l as [|[| |]]; cbn; try lia.
  destruct (Z.even m); lia.
Qed.

(** Rounding a magnitude below [2^106] at an exponent of at most [-104]
    yields a zero or a finite value. *)
Lemma binary_round_aux_finite s m e l :
  0 <= m < 2 ^ 106 -> e <= -104 ->
  SFfinite (binary_round_aux prec emax s m e l) = true.
Proof.
  intros Hm He. unfold binary_round_aux, shr_fexp.
  assert (D : Zdigits2 m <= 106) by (apply Zdigits2_le; lia).
  set (r0 := shr_record_of_loc m l).
  assert (H0 : 0 <= shr_m r0 <= m) by (unfold r0; destruct l as [|[| |]]; cbn; lia).
  destruct (shr_bounds m r0 e (fexp prec emax (Zdigits2 m + e) - e) H0)
    as [B1 E1].
  destruct (shr r0 e _) as [r1 e1]. cbn [fst snd] in B1, E1.
  assert (E1' : e1 <= -51)
    by (revert E1; unfold fexp, SpecFloat.emin, prec, emax; lia).
  set (m1 := round_nearest_even (shr_m r1) (loc_of_shr_record r1)).
  assert (B2 : 0 <= m1 <= shr_m r1 + 1)
    by (apply round_nearest_even_bounds; lia).
  assert (D1 : Zdigits2 m1 <= 107) by (apply Zdigits2_le; lia).
  assert (H1 : 0 <= shr_m (shr_record_of_loc m1 loc_Exact) <= m1)
    by (cbn; lia).
  destruct (shr_bounds m1 _ e1 (fexp prec emax (Zdigits2 m1 + e1) - e1) H1)
    as [B3 E2].
  destruct (shr (shr_record_of_loc m1 loc_Exact) e1 _) as [r2 e2].
  cbn [fst snd] in B3, E2.
  assert (E2' : e2 <= 3)
    by (revert E2; unfold fexp, SpecFloat.emin, prec, emax; lia).
  destruct (shr_m r2) as [|p|p]; [reflexivity| |lia].
  replace (e2 <=? emax - prec) with true; [reflexivity|].
  symmetry. apply Z.leb_le. unfold emax, prec. lia.
Qed.

Lemma mantissa_below m :
  Z.pos (digits2_pos m) <= 53 -> 0 < Z.pos m < 2 ^ 53.
Proof.
  intros H. destruct (digits2_pos_bounds m) as [_ U]. split; [lia|].
  eapply Z.lt_le_trans; [exact U|]. apply Z.pow_le_mono_r; lia.
Qed.

Local Close Scope Z_scope.
Local Open Scope float_scope.

Lemma mul_self_finite c : (abs c <=? 1) = true -> is_finite (c * c) = true.
Proof.
  intros H. rewrite FloatArith.is_finite_spec, mul_spec.
  rewrite leb_spec, abs_spec in H.
  change (Prim2SF 1) with (S754_finite false 4503599627370496 (-52)) in H.
  pose proof (Prim2SF_valid c) as V.
  destruct (Prim2SF c) as [s|s| |s m e]; try discriminate; [reflexivity|].
  cbn [SFabs] in H. unfold SFleb, SFcompare in H.
  cbn [valid_binary] in V. unfold bounded, canonical_mantissa in V.
  apply andb_true_iff in V as [V _]. apply Z.eqb_eq in V.
  assert (He : (e <= -52)%Z).
  { destruct (Z.compare_spec e (-52)); lia || discriminate. }
  assert (Hd : (Z.pos (digits2_pos m) <= 53)%Z)
    by (revert V; unfold fexp, SpecFloat.emin, prec, emax; lia).
  destruct (mantissa_below m Hd) as [Hm0 Hm].
  unfold SF64mul, SFmul. apply binary_round_aux_finite; [|lia].
  rewrite Pos2Z.inj_mul. split; [lia|].
  replace (2 ^ 106)%Z with (2 ^ 53 * 2 ^ 53)%Z by reflexivity. nia.
Qed.

End FloatRound.

(** ** The nearest-office resolver *)

Section Resolver.

Variables Math_sin Math_cos : number -> number.
Variable Math_atan2 : number -> number -> number.

Local Abbreviation calculateDistance :=
  (calculateDistance Math_sin Math_cos Math_atan2).
Local Abbreviation scanOffice := (scanOffice Math_sin Math_cos Math_atan2).
Local Abbreviation getDistanceToNearestOffice :=
  (getDistanceToNearestOffice Math_sin Math_cos Math_atan2).

Variable here : LocationData.

(** The distance from [here] to an office, as the loop computes it. *)
Local Abbreviation dist o :=
  (calculateDistance (lat here) (lng here) (latitude o) (longitude o)).

Lemma scanOffice_eq m r o :
  scanOffice here (m, r) o = if dist o <? m then (dist o, Some o) else (m, r).
Proof. reflexivity. Qed.

(** The loop from any starting pair [(m, r)]: either no office is below
    [m] and the pair is unchanged, or the pair ends on the first office
    that no office is below. *)
Lemma scan_fold offices : forall m r,
  (fold_left (scanOffice here) offices (m, r) = (m, r) /\
   forall o, In o offices -> (dist o <? m) = false)
  \/
  (exists pre o post,
     offices = pre ++ o :: post /\
     fold_left (scanOffice here) offices (m, r) = (dist o, Some o) /\
     (dist o <? m) = true /\
     (forall o', In o' offices -> (dist o' <? dist o) = false) /\
     (forall o', In o' pre -> is_nan (dist o') = false ->
                 (dist o <? dist o') = true)).
Proof.
  induction offices as [|o l IH]; intros m r.
  - left. split; [reflexivity | intros ? []].
  - cbn [fold_left]. rewrite scanOffice_eq.
    destruct (dist o <? m) eqn:Hlt.
    + destruct (IH (dist o) (Some o))
        as [[E Hall] | (pre & o2 & post & El & E & Hlt2 & Hall & Hpre)].
      * right. exists [], o, l.
        split; [reflexivity|]. split; [exact E|]. split; [exact Hlt|]. split.
        -- intros o' [<- | Hin]; [apply FloatOrder.ltb_irrefl | auto].
        -- intros ? [].
      * right. exists (o :: pre), o2, post.
        split; [now rewrite El|]. split; [exact E|].
        split; [eapply FloatOrder.ltb_trans; eauto|]. split.
        -- intros o' [<- | Hin]; auto.
           apply FloatOrder.leb_not_ltb, FloatOrder.ltb_leb, Hlt2.
        -- intros o' [<- | Hin] Hn; auto.
    + destruct (IH m r)
        as [[E Hall] | (pre & o2 & post & El & E & Hlt2 & Hall & Hpre)].
      * left. split; [exact E|]. intros o' [<- | Hin]; auto.
      * right. exists (o :: pre), o2, post.
        split; [now rewrite El|]. split; [exact E|]. split; [exact Hlt2|].
        split.
        -- intros o' [<- | Hin]; auto.
           destruct (dist o <? dist o2) eqn:E'; [|reflexivity].
           now rewrite (FloatOrder.ltb_trans _ _ _ E' Hlt2) in Hlt.
        -- intros o' [<- | Hin] Hn; auto.
           eapply FloatOrder.ltb_leb_trans; [exact Hlt2|].
           apply FloatOrder.not_ltb_leb; auto.
           eapply FloatOrder.ltb_is_number_r; eauto.
Qed.

Lemma getDistanceToNearestOffice_cons o l :
  getDistanceToNearestOffice (Some here) (o :: l) =
  let '(m, r) := fold_left (scanOffice here) (o :: l) (Infinity, None) in
  mkNearest m r.
Proof. reflexivity. Qed.

(** C1, as amended.  For every coordinate and every non-empty office list
    whose haversine distances are numbers below [Infinity],
    [getDistanceToNearestOffice] returns an office of the list paired with
    its distance; no office of the list is nearer, and every office met
    before it is strictly farther, so that among offices at the minimal
    distance the first one met is returned.  In particular, of three
    offices the second is selected when it is nearer than the two others
    (as with distances 500, 200, 800).  On a list that need not be of that
    kind, an office whose distance is NaN is passed over: the resolver
    returns the sentinel, distance [Infinity] and no office, exactly when
    no office of the list has a distance below [Infinity], which a
    non-empty list allows; otherwise it returns an office whose distance is
    below [Infinity], with that distance, such that no office of the list
    is strictly nearer and every office met before it whose distance is a
    number is strictly farther. *)
Theorem nearest_office_is_first_minimum :
  (forall offices,
     offices <> [] ->
     (forall o, In o offices -> (dist o <? Infinity) = true) ->
     exists pre o post,
       offices = pre ++ o :: post /\
       getDistanceToNearestOffice (Some here) offices
         = mkNearest (dist o) (Some o) /\
       (forall o', In o' offices -> (dist o <=? dist o') = true) /\
       (forall o', In o' pre -> (dist o <? dist o') = true))
  /\
  (forall o1 o2 o3,
     (dist o2 <? dist o1) = true ->
     (dist o2 <? dist o3) = true ->
     getDistanceToNearestOffice (Some here) [o1; o2; o3]
       = mkNearest (dist o2) (Some o2))
  /\
  (forall offices,
     (getDistanceToNearestOffice (Some here) offices
        = mkNearest Infinity None /\
      forall o', In o' offices -> (dist o' <? Infinity) = false)
     \/
     (exists pre o post,
        offices = pre ++ o :: post /\
        getDistanceToNearestOffice (Some here) offices
          = mkNearest (dist o) (Some o) /\
        (dist o <? Infinity) = true /\
        (forall o', In o' offices -> (dist o' <? dist o) = false) /\
        (forall o', In o' pre -> is_nan (dist o') = false ->
                    (dist o <? dist o') = true))).
Proof.
  split; [|split].
  - intros [|o l] Hne Hnum; [congruence|].
    rewrite getDistanceToNearestOffice_cons.
    destruct (scan_fold (o :: l) Infinity None)
      as [[_ Hall] | (pre & o2 & post & El & E & Hlt & Hall & Hpre)].
    + specialize (Hall o (or_introl eq_refl)).
      rewrite (Hnum o (or_introl eq_refl)) in Hall. discriminate.
    + exists pre, o2, post. rewrite E.
      split; [exact El|]. split; [reflexivity|]. split.
      * intros o' Hin. apply FloatOrder.not_ltb_leb; auto.
        -- eapply FloatOrder.ltb_is_number, Hnum, Hin.
        -- eapply FloatOrder.ltb_is_number, Hlt.
      * intros o' Hin. apply Hpre; auto.
        eapply FloatOrder.ltb_is_number, Hnum.
        rewrite El. apply in_or_app. now left.
  - intros o1 o2 o3 H21 H23.
    rewrite getDistanceToNearestOffice_cons. cbn [fold_left].
    rewrite scanOffice_eq.
    assert (H32 : (dist o3 <? dist o2) = false)
      by apply FloatOrder.leb_not_ltb, FloatOrder.ltb_leb, H23.
    destruct (dist o1 <? Infinity) eqn:H1.
    + now rewrite scanOffice_eq, H21, scanOffice_eq, H32.
    + assert (H2 : (dist o2 <? Infinity) = true).
      { eapply FloatOrder.ltb_leb_trans; [exact H21|].
        eapply FloatOrder.leb_infinity, FloatOrder.ltb_is_number_r, H21. }
      now rewrite scanOffice_eq, H2, scanOffice_eq, H32.
  - intros [|o l]; [left; split; [reflexivity | intros ? []]|].
    rewrite getDistanceToNearestOffice_cons.
    destruct (scan_fold (o :: l) Infinity None)
      as [[E Hall] | (pre & o2 & post & El & E & Hlt & Hall & Hpre)];
      rewrite E.
    + left. now split.
    + right. exists pre, o2, post. repeat split; assumption.
Qed.

End Resolver.

(** ** The haversine distance *)

Section Haversine.

Variables Math_sin Math_cos : number -> number.
Variable Math_atan2 : number -> number -> number.

Lemma calculateDistance_eq lat1 lon1 lat2 lon2 :
  calculateDistance Math_sin Math_cos Math_atan2 lat1 lon1 lat2 lon2 =
  6371e3 *
  (2 * Math_atan2
     (Math_sqrt
        (Math_sin ((lat2 - lat1) * Math_PI / 180 / 2)
           * Math_sin ((lat2 - lat1) * Math_PI / 180 / 2)
         + Math_cos (lat1 * Math_PI / 180) * Math_cos (lat2 * Math_PI / 180)
             * Math_sin ((lon2 - lon1) * Math_PI / 180 / 2)
             * Math_sin ((lon2 - lon1) * Math_PI / 180 / 2)))
     (Math_sqrt
        (1 - (Math_sin ((lat2 - lat1) * Math_PI / 180 / 2)
                * Math_sin ((lat2 - lat1) * Math_PI / 180 / 2)
              + Math_cos (lat1 * Math_PI / 180) * Math_cos (lat2 * Math_PI / 180)
                  * Math_sin ((lon2 - lon1) * Math_PI / 180 / 2)
                  * Math_sin ((lon2 - lon1) * Math_PI / 180 / 2))))).
Proof. reflexivity. Qed.

Local Abbreviation calculateDistance :=
  (calculateDistance Math_sin Math_cos Math_atan2).

(** The sine of half an angle difference given in degrees, as it occurs in
    [calculateDistance]; swapping the two angles leaves it or negates it. *)
Lemma half_sine_swap x y :
  (forall t, Math_sin (- t) = - Math_sin t) ->
  Math_sin ((y - x) * Math_PI / 180 / 2)
    = Math_sin ((x - y) * Math_PI / 180 / 2) \/
  Math_sin ((y - x) * Math_PI / 180 / 2)
    = - Math_sin ((x - y) * Math_PI / 180 / 2).
Proof.
  intros Hodd. destruct (FloatArith.sub_swap x y) as [-> | ->]; [now left|].
  right.
  now rewrite FloatArith.mul_opp_l, !FloatArith.div_opp_l, Hodd.
Qed.

(** C6. For every coordinate whose latitude and longitude are finite
    numbers, the distance from the coordinate to itself is [0], on any host
    whose sine and arctangent take [+0] to [+0] as ECMAScript requires and
    whose cosine, at the latitude, lies within [[-1, 1]]; and on any host
    whose sine is odd the distance between two coordinates is the same in
    both directions. *)
Theorem calculateDistance_self_zero_and_symmetric :
  (forall lat lon,
     Math_sin 0 = 0 ->
     Math_atan2 0 1 = 0 ->
     is_finite lat = true ->
     is_finite lon = true ->
     (abs (Math_cos (lat * Math_PI / 180)) <=? 1) = true ->
     calculateDistance lat lon lat lon = 0) /\
  ((forall t, Math_sin (- t) = - Math_sin t) ->
   forall lat1 lon1 lat2 lon2,
     calculateDistance lat1 lon1 lat2 lon2
       = calculateDistance lat2 lon2 lat1 lon1).
Proof.
  split.
  - intros lat lon Hsin Hatan Hlat Hlon Hcos.
    apply FloatRound.mul_self_finite in Hcos.
    rewrite calculateDistance_eq.
    rewrite (FloatArith.sub_diag lat Hlat), (FloatArith.sub_diag lon Hlon).
    change (0 * Math_PI / 180 / 2) with 0. rewrite Hsin.
    set (p := Math_cos _ * Math_cos _) in *.
    assert (E : 0 * 0 + p * 0 * 0 = 0)
      by (destruct (FloatArith.mul_zero_r p Hcos) as [-> | ->]; reflexivity).
    rewrite E.
    change (Math_sqrt 0) with 0. change (Math_sqrt (1 - 0)) with 1.
    rewrite Hatan. reflexivity.
  - intros Hodd lat1 lon1 lat2 lon2.
    rewrite !calculateDistance_eq.
    rewrite (FloatArith.mul_comm (Math_cos (lat2 * Math_PI / 180))).
    set (c := Math_cos _ * Math_cos _).
    assert (E :
      Math_sin ((lat2 - lat1) * Math_PI / 180 / 2)
        * Math_sin ((lat2 - lat1) * Math_PI / 180 / 2)
      + c * Math_sin ((lon2 - lon1) * Math_PI / 180 / 2)
          * Math_sin ((lon2 - lon1) * Math_PI / 180 / 2)
      = Math_sin ((lat1 - lat2) * Math_PI / 180 / 2)
        * Math_sin ((lat1 - lat2) * Math_PI / 180 / 2)
      + c * Math_sin ((lon1 - lon2) * Math_PI / 180 / 2)
          * Math_sin ((lon1 - lon2) * Math_PI / 180 / 2)).
    { destruct (half_sine_swap lat1 lat2 Hodd) as [-> | ->],
               (half_sine_swap lon1 lon2 Hodd) as [-> | ->];
        rewrite ?FloatArith.mul_opp_opp, ?FloatArith.mul_opp_r,
                ?FloatArith.mul_opp_l, ?FloatArith.opp_involutive;
        reflexivity. }
    now rewrite E.
Qed.

End Haversine.

(** The reference host's sine is odd. *)
Lemma RefHost_sin_odd t : RefHost.sin (- t) = - RefHost.sin t.
Proof.
  unfold RefHost.sin.
  rewrite FloatArith.ltb_opp_zero, FloatArith.ltb_zero_opp, FloatArith.abs_opp.
  destruct (t <? 0) eqn:N, (0 <? t) eqn:P.
  - generalize (FloatOrder.ltb_trans _ _ _ N P).
    now rewrite FloatOrder.ltb_irrefl.
  - now rewrite FloatArith.opp_involutive.
  - reflexivity.
  - reflexivity.
Qed.

(** One degree of longitude on the equator, on the reference host: within
    a metre of 111195 m. *)
Example one_degree_on_the_equator :
  (111194 <? calculateDistance RefHost.sin RefHost.cos RefHost.atan2 0 0 0 1)
    = true /\
  (calculateDistance RefHost.sin RefHost.cos RefHost.atan2 0 0 0 1 <? 111196)
    = true.
Proof. split; vm_compute; reflexivity. Qed.

Lemma calculateDistance_self_zero_and_symmetric_witness :
  calculateDistance RefHost.sin RefHost.cos RefHost.atan2 12.5 77.5 12.5 77.5
    = 0 /\
  calculateDistance RefHost.sin RefHost.cos RefHost.atan2 12.5 77.5 13.25 80.5
    = calculateDistance RefHost.sin RefHost.cos RefHost.atan2
                        13.25 80.5 12.5 77.5.
Proof.
  destruct (calculateDistance_self_zero_and_symmetric
              RefHost.sin RefHost.cos RefHost.atan2) as [Self Sym].
  split.
  - apply Self; vm_compute; reflexivity.
  - apply (Sym RefHost_sin_odd).
Defined.

(** ** The geofence policy *)

Lemma truthy_is_number x : truthy x = true -> is_nan x = false.
Proof.
  unfold truthy. destruct (is_nan x); [discriminate | reflexivity].
Qed.

Lemma requiredGeofenceDistance_truthy nearestOffice :
  truthy (requiredGeofenceDistance nearestOffice) = true.
Proof.
  unfold requiredGeofenceDistance, or_default.
  destruct nearestOffice as [o|]; [|reflexivity].
  destruct (requiredDistance o) as [v|]; [|reflexivity].
  destruct (truthy v) eqn:E; [exact E | reflexivity].
Qed.

(** On numbers, [y < x] is the negation of [x <= y]. *)
Lemma ltb_negb_leb x y :
  is_nan x = false -> is_nan y = false -> (y <? x) = negb (x <=? y).
Proof.
  intros Hx Hy. destruct (y <? x) eqn:E.
  - now rewrite (FloatOrder.ltb_not_leb _ _ E).
  - now rewrite (FloatOrder.not_ltb_leb _ _ Hy Hx E).
Qed.

(** Anything above the accuracy threshold is truthy. *)
Lemma above_threshold_truthy a :
  (ACCEPTABLE_GPS_ACCURACY_THRESHOLD <? a) = true -> truthy a = true.
Proof.
  intros H. unfold truthy, is_zero.
  rewrite (FloatOrder.ltb_is_number_r _ _ H). cbn [orb negb].
  destruct (a =? zero) eqn:E; [|reflexivity].
  assert (L : (a <=? zero) = true).
  { rewrite leb_spec. rewrite eqb_spec in E. unfold SFleb, SFeqb in *.
    destruct (SFcompare (Prim2SF a) (Prim2SF zero)) as [[| |]|];
      try discriminate; reflexivity. }
  assert (C : (ACCEPTABLE_GPS_ACCURACY_THRESHOLD <? zero) = true)
    by (eapply FloatOrder.ltb_leb_trans; eauto).
  discriminate C.
Qed.

Lemma exceedsAccuracyThreshold_above a :
  (ACCEPTABLE_GPS_ACCURACY_THRESHOLD <? a) = true ->
  exceedsAccuracyThreshold (Some a) = true.
Proof.
  intros H. cbn. now rewrite (above_threshold_truthy _ H), H.
Qed.

Lemma location_getLocation_position svc st :
  storedAccuracyOk (location (fst (getLocation_position svc st))) = true.
Proof.
  unfold getLocation_position, getLocation_catch.
  destruct (getCurrentPositionAsync svc) as [c|]; [|reflexivity].
  destruct (exceedsAccuracyThreshold (coords_accuracy c)) eqn:E;
    [reflexivity|].
  cbn. destruct (coords_accuracy c) as [a|]; [|reflexivity].
  cbn in E. destruct (ACCEPTABLE_GPS_ACCURACY_THRESHOLD <? a) eqn:L;
    [|reflexivity].
  now rewrite (above_threshold_truthy _ L) in E.
Qed.

Lemma location_getLocation_body svc st :
  storedAccuracyOk (location (fst (getLocation_body svc st))) = true.
Proof.
  unfold getLocation_body, getLocation_catch.
  destruct (getForegroundPermissionsAsync svc) as [s|]; [|reflexivity].
  destruct (negb (is_granted s));
    [|apply location_getLocation_position].
  destruct (requestForegroundPermissionsAsync svc) as [s'|]; [|reflexivity].
  destruct (negb (is_granted s'));
    [reflexivity | apply location_getLocation_position].
Qed.

Lemma location_fetchAssignedOffices_body resp st :
  location (fetchAssignedOffices_body resp st) = location st.
Proof.
  unfold fetchAssignedOffices_body.
  destruct resp as [msg|data]; [reflexivity|].
  destruct (Nat.eqb (List.length data) 0); reflexivity.
Qed.

Lemma location_initializeData order resp svc st :
  storedAccuracyOk (location (fst (initializeData order resp svc st))) = true.
Proof.
  unfold initializeData.
  set (st1 := setError None (setLoading true st)).
  set (st2 := if hasUserId st1 then st1 else _).
  destruct order.
  - destruct (getLocation_body svc _) as [s shown] eqn:E. cbn.
    change s with (fst (s, shown)). rewrite <- E.
    apply location_getLocation_body.
  - destruct (getLocation_body svc _) as [s shown] eqn:E. cbn.
    destruct (hasUserId st2); [rewrite location_fetchAssignedOffices_body|];
      change s with (fst (s, shown)); rewrite <- E;
      apply location_getLocation_body.
Qed.

(** A fix above the threshold leaves no stored location, whatever the
    permission requests answered, and leaves an error to show. *)
Lemma getLocation_discards svc st c a :
  getCurrentPositionAsync svc = Some c ->
  coords_accuracy c = Some a ->
  (ACCEPTABLE_GPS_ACCURACY_THRESHOLD <? a) = true ->
  location (fst (getLocation svc st)) = None /\
  shows (error (fst (getLocation svc st))) = true.
Proof.
  intros Hc Ha Habove.
  assert (P : forall s, location (fst (getLocation_position svc s)) = None /\
                        shows (error (fst (getLocation_position svc s))) = true).
  { intros s. unfold getLocation_position. rewrite Hc. cbv beta iota.
    rewrite Ha, (exceedsAccuracyThreshold_above _ Habove). now split. }
  unfold getLocation, getLocation_body, getLocation_catch.
  destruct (getForegroundPermissionsAsync svc) as [s|]; [|now split].
  destruct (negb (is_granted s)); [|apply P].
  destruct (requestForegroundPermissionsAsync svc) as [s'|]; [|now split].
  destruct (negb (is_granted s')); [now split | apply P].
Qed.

Section Policy.

Variables Math_sin Math_cos : number -> number.
Variable Math_atan2 : number -> number -> number.

Local Abbreviation getDistanceToNearestOffice :=
  (getDistanceToNearestOffice Math_sin Math_cos Math_atan2).
Local Abbreviation markAttendance :=
  (markAttendance Math_sin Math_cos Math_atan2).
Local Abbreviation evaluateRange :=
  (evaluateRange Math_sin Math_cos Math_atan2).
Local Abbreviation proceedWithAttendance :=
  (proceedWithAttendance Math_sin Math_cos Math_atan2).
Local Abbreviation reachable := (reachable Math_sin Math_cos Math_atan2).
Local Abbreviation step := (step Math_sin Math_cos Math_atan2).

(** A matched office comes with a distance that is a number. *)
Lemma matched_distance_is_number location offices o :
  office (getDistanceToNearestOffice location offices) = Some o ->
  is_nan (distance (getDistanceToNearestOffice location offices)) = false.
Proof.
  destruct location as [here|]; [|discriminate].
  destruct offices as [|o1 l]; [discriminate|].
  rewrite getDistanceToNearestOffice_cons.
  destruct (scan_fold Math_sin Math_cos Math_atan2 here (o1 :: l) Infinity None)
    as [[E _] | (pre & o2 & post & _ & E & Hlt & _)]; rewrite E; cbn.
  - discriminate.
  - intros _. eapply FloatOrder.ltb_is_number, Hlt.
Qed.

Lemma location_markAttendance now st :
  location (fst (markAttendance now st)) = location st.
Proof.
  unfold markAttendance.
  destruct (now - lastTap st <? 1500); [reflexivity|].
  cbn [user setLastTap location assignedOffices].
  destruct (user st); [|reflexivity].
  destruct (location st) as [loc|] eqn:El; [|cbn; exact El].
  destruct (Nat.eqb _ 0); [cbn; exact El|].
  destruct (exceedsAccuracyThreshold _); [cbn; exact El|].
  destruct (office _); [|cbn; exact El].
  destruct (_ <? _); cbn; exact El.
Qed.

Lemma location_proceedWithAttendance resp st :
  location (fst (proceedWithAttendance resp st)) = location st.
Proof.
  unfold proceedWithAttendance.
  destruct (user st); [|reflexivity].
  destruct (location st) eqn:El; [|cbn; exact El].
  destruct (assignedOffices st); cbn; exact El.
Qed.

Lemma step_keeps_accuracy st st' :
  step st st' ->
  storedAccuracyOk (location st) = true ->
  storedAccuracyOk (location st') = true.
Proof.
  intros [u loaded s | svc s | resp s | order resp svc s | order resp svc s
         | now s | resp s] H.
  - exact H.
  - apply location_getLocation_body.
  - unfold fetchAssignedOffices. destruct (hasUserId s);
      [now rewrite location_fetchAssignedOffices_body | exact H].
  - apply location_initializeData.
  - unfold onRefresh.
    destruct (initializeData order resp svc (setRefreshing true s))
      as [s' shown] eqn:E. cbn.
    change s' with (fst (s', shown)). rewrite <- E.
    apply location_initializeData.
  - now rewrite location_markAttendance.
  - now rewrite location_proceedWithAttendance.
Qed.

(** What [markAttendance] does once its guards are passed and the resolver
    matched an office: it compares the distance with the threshold. *)
Lemma markAttendance_compares now st loc o :
  (now - lastTap st <? 1500) = false ->
  signedIn st = true ->
  location st = Some loc ->
  exceedsAccuracyThreshold (accuracy loc) = false ->
  office (getDistanceToNearestOffice (location st) (assignedOffices st))
    = Some o ->
  snd (markAttendance now st) =
  let d := distance
             (getDistanceToNearestOffice (location st) (assignedOffices st)) in
  if requiredGeofenceDistance (Some o) <? d
  then Returned (Some (outOfRangeAlert o d (requiredGeofenceDistance (Some o))))
  else Proceeds.
Proof.
  intros Htap Hu Hloc Hacc Hoff.
  unfold markAttendance. rewrite Htap.
  cbn [user setLastTap location assignedOffices].
  unfold signedIn in Hu. destruct (user st); [|discriminate].
  destruct (assignedOffices st) as [|o1 l] eqn:El.
  { rewrite Hloc in Hoff. discriminate. }
  rewrite Hloc in *. cbn [List.length Nat.eqb]. rewrite Hacc, Hoff.
  cbv zeta.
  destruct (requiredGeofenceDistance (Some o) <? _); reflexivity.
Qed.

End Policy.

(** ** Properties of the resolver and of the geofence policy *)

Section Claims.

Variables Math_sin Math_cos : number -> number.
Variable Math_atan2 : number -> number -> number.

Local Abbreviation getDistanceToNearestOffice :=
  (getDistanceToNearestOffice Math_sin Math_cos Math_atan2).
Local Abbreviation markAttendance :=
  (markAttendance Math_sin Math_cos Math_atan2).
Local Abbreviation evaluateRange :=
  (evaluateRange Math_sin Math_cos Math_atan2).
Local Abbreviation reachable := (reachable Math_sin Math_cos Math_atan2).

(** C3. For every coordinate, present or not, the resolver run on an empty
    office list returns the sentinel: distance [Infinity] and no office. *)
Theorem empty_office_list_gives_sentinel :
  forall location,
    getDistanceToNearestOffice location [] = mkNearest Infinity None.
Proof. intros [loc|]; reflexivity. Qed.

(** C8. With no current location the resolver returns the sentinel, the
    result it gives on an empty office list, whatever the office list is;
    the render body, which calls it without a guard, then shows an infinite
    distance, no office, and out of range. *)
Theorem absent_location_gives_sentinel :
  forall offices,
    getDistanceToNearestOffice None offices = mkNearest Infinity None /\
    (forall location,
       getDistanceToNearestOffice None offices
         = getDistanceToNearestOffice location []) /\
    (forall st,
       evaluateRange (setAssignedOffices offices (setLocation None st))
         = mkRange Infinity None false).
Proof.
  intros offices. split; [reflexivity|]. split.
  - intros [loc|]; reflexivity.
  - intros st. reflexivity.
Qed.

(** C4. When the nearest office has no [requiredDistance], the threshold is
    1000: the range evaluation compares the distance with 1000, and so does
    [markAttendance] once its guards are passed. *)
Theorem absent_required_distance_defaults_to_1000 :
  forall o,
    requiredDistance o = None ->
    requiredGeofenceDistance (Some o) = 1000 /\
    (forall d, withinRange d (Some o) = (d <=? 1000)) /\
    (forall now st loc,
       (now - lastTap st <? 1500) = false ->
       signedIn st = true ->
       location st = Some loc ->
       exceedsAccuracyThreshold (accuracy loc) = false ->
       office (getDistanceToNearestOffice (location st) (assignedOffices st))
         = Some o ->
       snd (markAttendance now st) =
       let d := distance (getDistanceToNearestOffice (location st)
                                                     (assignedOffices st)) in
       if 1000 <? d then Returned (Some (outOfRangeAlert o d 1000))
       else Proceeds).
Proof.
  intros o Ho.
  assert (E : requiredGeofenceDistance (Some o) = 1000)
    by (unfold requiredGeofenceDistance; now rewrite Ho).
  split; [exact E|]. split.
  - intros d. unfold withinRange. now rewrite E.
  - intros now st loc Htap Hu Hloc Hacc Hoff.
    rewrite (markAttendance_compares _ _ _ now st loc o); auto.
    now rewrite E.
Qed.

(** C9. A [requiredDistance] that is falsy (zero of either sign, or NaN,
    such as [0] and [NaN] themselves) is replaced by 1000: the range is then
    evaluated against 1000.  The threshold in use is never zero, whatever the
    office. *)
Theorem falsy_required_distance_defaults_to_1000 :
  (truthy 0 = false /\ truthy (-0) = false /\ truthy nan = false) /\
  (forall o v,
     requiredDistance o = Some v ->
     truthy v = false ->
     requiredGeofenceDistance (Some o) = 1000 /\
     (forall d, withinRange d (Some o) = (d <=? 1000))) /\
  (forall nearestOffice,
     is_zero (requiredGeofenceDistance nearestOffice) = false).
Proof.
  split; [repeat split; reflexivity|]. split.
  - intros o v Ho Hv.
    assert (E : requiredGeofenceDistance (Some o) = 1000)
      by (unfold requiredGeofenceDistance, or_default; now rewrite Ho, Hv).
    split; [exact E|]. intros d. unfold withinRange. now rewrite E.
  - intros nearestOffice.
    generalize (requiredGeofenceDistance_truthy nearestOffice).
    unfold truthy. destruct (is_zero _); [|reflexivity].
    now rewrite orb_true_r.
Qed.

(** C2, as amended.  For a matched office the range flag is
    [distance <= t], where [t] is the office's [requiredDistance] when that
    is present and truthy, and 1000 otherwise.  With a required distance of
    1000, a distance of 999 is within range, 1000 is within range and 1001 is
    not.  Once its guards are passed, [markAttendance] proceeds exactly when
    that flag is set, and offers the out-of-range confirmation otherwise. *)
Theorem within_range_is_distance_leb_threshold :
  (forall d o,
     withinRange d (Some o) =
     (d <=? match requiredDistance o with
            | Some t => if truthy t then t else 1000
            | None => 1000
            end)) /\
  (forall o,
     requiredDistance o = Some 1000 ->
     withinRange 999 (Some o) = true /\
     withinRange 1000 (Some o) = true /\
     withinRange 1001 (Some o) = false) /\
  (forall now st loc o,
     (now - lastTap st <? 1500) = false ->
     signedIn st = true ->
     location st = Some loc ->
     exceedsAccuracyThreshold (accuracy loc) = false ->
     shownOffice (evaluateRange st) = Some o ->
     snd (markAttendance now st) =
     if isWithinRange (evaluateRange st) then Proceeds
     else Returned (Some (outOfRangeAlert o (shownDistance (evaluateRange st))
                                          (requiredGeofenceDistance (Some o))))).
Proof.
  split; [reflexivity|]. split.
  - intros o Ho. unfold withinRange, requiredGeofenceDistance, or_default.
    rewrite Ho. repeat split; reflexivity.
  - intros now st loc o Htap Hu Hloc Hacc Hoff. cbn in Hoff.
    rewrite (markAttendance_compares _ _ _ now st loc o); auto.
    cbn [evaluateRange isWithinRange shownDistance]. cbv zeta.
    unfold withinRange. rewrite Hoff.
    rewrite ltb_negb_leb.
    + destruct (_ <=? _); reflexivity.
    + eapply matched_distance_is_number, Hoff.
    + apply truthy_is_number, requiredGeofenceDistance_truthy.
Qed.

(** C5, as amended.  [markAttendance], run by a signed-in user after the
    tap delay on a stored location whose accuracy is above 1500 and with
    offices assigned, shows the low-accuracy alert, which is not the
    out-of-range alert and whose second button proceeds, whatever the
    offices and their distances are.  A fix reported with an accuracy above
    1500 is however not stored by [getLocation]: the location is cleared and
    an error is left to show, and [markAttendance] run on that state neither
    proceeds nor offers to. *)
Theorem low_accuracy_warning_only_on_stored_location :
  (forall now st loc a,
     (now - lastTap st <? 1500) = false ->
     signedIn st = true ->
     location st = Some loc ->
     assignedOffices st <> [] ->
     accuracy loc = Some a ->
     (ACCEPTABLE_GPS_ACCURACY_THRESHOLD <? a) = true ->
     snd (markAttendance now st) = Returned (Some (lowAccuracyAlert a)) /\
     canProceed (Returned (Some (lowAccuracyAlert a))) = true /\
     (forall o d t, lowAccuracyAlert a <> outOfRangeAlert o d t)) /\
  (forall svc st c a,
     getCurrentPositionAsync svc = Some c ->
     coords_accuracy c = Some a ->
     (ACCEPTABLE_GPS_ACCURACY_THRESHOLD <? a) = true ->
     location (fst (getLocation svc st)) = None /\
     shows (error (fst (getLocation svc st))) = true /\
     forall now,
       canProceed (snd (markAttendance now (fst (getLocation svc st))))
         = false).
Proof.
  split.
  - intros now st loc a Htap Hu Hloc Hoff Ha Habove.
    split; [|split; [reflexivity | discriminate]].
    unfold markAttendance. rewrite Htap.
    cbn [user setLastTap location assignedOffices].
    unfold signedIn in Hu. destruct (user st); [|discriminate].
    rewrite Hloc. destruct (assignedOffices st); [congruence|].
    cbn [List.length Nat.eqb].
    now rewrite Ha, (exceedsAccuracyThreshold_above _ Habove).
  - intros svc st c a Hc Ha Habove.
    destruct (getLocation_discards svc st c a Hc Ha Habove) as [Hl He].
    split; [exact Hl|]. split; [exact He|].
    intros now. unfold markAttendance.
    destruct (_ <? 1500); [reflexivity|].
    cbn [user setLastTap location assignedOffices].
    destruct (user _); [|reflexivity].
    now rewrite Hl.
Qed.

(** C10. Whatever the location service answers, the location [getLocation]
    leaves in the state has an accuracy that is [null] or not above 1500
    (at most 1500 whenever it is a number), and this holds in every state
    the screen reaches; a fix whose accuracy is above 1500 is discarded,
    the location being set to [null] with an error to show. *)
Theorem stored_accuracy_never_above_threshold :
  (forall svc st,
     storedAccuracyOk (location (fst (getLocation svc st))) = true) /\
  (forall st, reachable st -> storedAccuracyOk (location st) = true) /\
  (forall loc a,
     storedAccuracyOk (Some loc) = true ->
     accuracy loc = Some a ->
     (ACCEPTABLE_GPS_ACCURACY_THRESHOLD <? a) = false /\
     (is_nan a = false -> (a <=? ACCEPTABLE_GPS_ACCURACY_THRESHOLD) = true)) /\
  (forall svc st c a,
     getCurrentPositionAsync svc = Some c ->
     coords_accuracy c = Some a ->
     (ACCEPTABLE_GPS_ACCURACY_THRESHOLD <? a) = true ->
     location (fst (getLocation svc st)) = None /\
     shows (error (fst (getLocation svc st))) = true).
Proof.
  split; [intros; apply location_getLocation_body|]. split.
  - induction 1 as [u loaded | st st' _ IH Hstep]; [reflexivity|].
    eapply step_keeps_accuracy; eauto.
  - split; [|exact getLocation_discards].
    intros loc a Hok Ha. cbn in Hok. rewrite Ha in Hok.
    apply negb_true_iff in Hok. split; [exact Hok|].
    intros Hn. apply FloatOrder.not_ltb_leb; auto.
Qed.

End Claims.

(** ** The properties at the sample data, on the reference host *)

Module OnSample.

Import Sample.

Local Abbreviation calculateDistance :=
  (calculateDistance RefHost.sin RefHost.cos RefHost.atan2).
Local Abbreviation getDistanceToNearestOffice :=
  (getDistanceToNearestOffice RefHost.sin RefHost.cos RefHost.atan2).
Local Abbreviation markAttendance :=
  (markAttendance RefHost.sin RefHost.cos RefHost.atan2).
Local Abbreviation evaluateRange :=
  (evaluateRange RefHost.sin RefHost.cos RefHost.atan2).
Local Abbreviation reachable :=
  (reachable RefHost.sin RefHost.cos RefHost.atan2).

(** The three sample offices lie about 500 m, 200 m and 800 m away. *)
Example sample_distances :
  (499 <? calculateDistance 0 0 (latitude officeA) 0) = true /\
  (calculateDistance 0 0 (latitude officeA) 0 <? 501) = true /\
  calculateDistance 0 0 (latitude officeB) 0 = 200 /\
  calculateDistance 0 0 (latitude officeC) 0 = 800.
Proof. repeat split; vm_compute; reflexivity. Qed.

Lemma nearest_office_is_first_minimum_witness :
  (exists pre o post,
     [officeA; officeB; officeC] = pre ++ o :: post /\
     getDistanceToNearestOffice (Some here) [officeA; officeB; officeC]
       = mkNearest (calculateDistance (lat here) (lng here)
                                      (latitude o) (longitude o)) (Some o) /\
     (forall o', In o' [officeA; officeB; officeC] ->
        (calculateDistance (lat here) (lng here) (latitude o) (longitude o)
         <=? calculateDistance (lat here) (lng here)
                               (latitude o') (longitude o')) = true) /\
     (forall o', In o' pre ->
        (calculateDistance (lat here) (lng here) (latitude o) (longitude o)
         <? calculateDistance (lat here) (lng here)
                              (latitude o') (longitude o')) = true)) /\
  getDistanceToNearestOffice (Some here) [officeA; officeB; officeC]
    = mkNearest 200 (Some officeB).
Proof.
  destruct (nearest_office_is_first_minimum
              RefHost.sin RefHost.cos RefHost.atan2 here)
    as (General & Particular & _).
  split.
  - apply General; [discriminate|].
    intros o [<- | [<- | [<- | []]]]; vm_compute; reflexivity.
  - exact (Particular officeA officeB officeC eq_refl eq_refl).
Defined.

(** C1 fails as stated on a non-empty office list none of whose distances
    is a number: for an office record without a latitude the distance is
    NaN, the test [distance < minDistance] fails, and the resolver returns
    the sentinel and no office.  The same happens with coordinates that are
    all finite, for an office nearly opposite on the globe, where the
    haversine term rounds above 1.  Next to offices with distances that are
    numbers, such an office is passed over. *)
Lemma unplaced_office_counterexample :
  [officeN] <> [] /\
  is_nan (calculateDistance (lat here) (lng here)
                            (latitude officeN) (longitude officeN)) = true /\
  getDistanceToNearestOffice (Some here) [officeN] = mkNearest Infinity None /\
  (is_finite (lat farSide) && is_finite (lng farSide) &&
   is_finite (latitude officeFar) && is_finite (longitude officeFar)) = true /\
  is_nan (calculateDistance (lat farSide) (lng farSide)
                            (latitude officeFar) (longitude officeFar))
    = true /\
  getDistanceToNearestOffice (Some farSide) [officeFar]
    = mkNearest Infinity None /\
  getDistanceToNearestOffice (Some here) [officeN; officeA; officeB]
    = mkNearest 200 (Some officeB).
Proof.
  split; [discriminate|]. repeat split; vm_compute; reflexivity.
Qed.

Lemma absent_required_distance_defaults_to_1000_witness :
  requiredDistance officeA = None /\
  requiredGeofenceDistance (Some officeA) = 1000 /\
  snd (markAttendance 5000 (screenWith [officeA])) = Proceeds.
Proof.
  destruct (absent_required_distance_defaults_to_1000
              RefHost.sin RefHost.cos RefHost.atan2 officeA eq_refl)
    as (E & _ & M).
  split; [reflexivity|]. split; [exact E|].
  exact (M 5000 (screenWith [officeA]) here
           eq_refl eq_refl eq_refl eq_refl eq_refl).
Defined.

Lemma falsy_required_distance_defaults_to_1000_witness :
  requiredDistance officeZ = Some 0 /\
  truthy 0 = false /\
  requiredGeofenceDistance (Some officeZ) = 1000 /\
  withinRange 500 (Some officeZ) = true.
Proof.
  destruct falsy_required_distance_defaults_to_1000 as (_ & F & _).
  destruct (F officeZ 0 eq_refl eq_refl) as [E W].
  split; [reflexivity|]. split; [reflexivity|]. split; [exact E|].
  rewrite W. reflexivity.
Defined.

(** C2 fails as stated where the office carries a required distance that is
    falsy: [officeZ] requires 0 and is matched at about 500 m, which is not
    [<= 0], yet the range flag is set. *)
Lemma zero_required_distance_counterexample :
  office (getDistanceToNearestOffice (Some here) [officeZ]) = Some officeZ /\
  requiredDistance officeZ = Some 0 /\
  (distance (getDistanceToNearestOffice (Some here) [officeZ]) <=? 0) = false /\
  isWithinRange (evaluateRange (screenWith [officeZ])) = true.
Proof. repeat split; vm_compute; reflexivity. Qed.

Lemma within_range_is_distance_leb_threshold_witness :
  (withinRange 999 (Some officeB) = true /\
   withinRange 1000 (Some officeB) = true /\
   withinRange 1001 (Some officeB) = false) /\
  isWithinRange (evaluateRange (screenWith [officeC])) = false /\
  snd (markAttendance 5000 (screenWith [officeC]))
    = Returned (Some (outOfRangeAlert officeC 800 250)).
Proof.
  destruct (within_range_is_distance_leb_threshold
              RefHost.sin RefHost.cos RefHost.atan2) as (_ & B & M).
  split; [exact (B officeB eq_refl)|]. split; [reflexivity|].
  exact (M 5000 (screenWith [officeC]) here officeC
           eq_refl eq_refl eq_refl eq_refl eq_refl).
Defined.

(** C5 fails as stated on the flow from the location service: a fix of
    accuracy 2000 is dropped by [getLocation], and [markAttendance] then
    answers that a location is required, which is not the low-accuracy alert
    and offers no way to proceed. *)
Lemma coarse_fix_counterexample :
  getCurrentPositionAsync (serviceReporting (Some 2000))
    = Some (mkCoords 0 0 (Some 2000)) /\
  (ACCEPTABLE_GPS_ACCURACY_THRESHOLD <? 2000) = true /\
  location afterCoarseFix = None /\
  error afterCoarseFix = Some (LowGpsAccuracyText 2000) /\
  snd (markAttendance 5000 afterCoarseFix)
    = Returned (Some (mkAlert "Location Required"
        (Text "Please enable location services and try again.") [])) /\
  snd (markAttendance 5000 afterCoarseFix)
    <> Returned (Some (lowAccuracyAlert 2000)) /\
  canProceed (snd (markAttendance 5000 afterCoarseFix)) = false.
Proof. repeat split; try (vm_compute; reflexivity). discriminate. Qed.

Lemma low_accuracy_warning_only_on_stored_location_witness :
  (snd (markAttendance 5000 (coarseScreen [officeA; officeB]))
     = Returned (Some (lowAccuracyAlert 2000)) /\
   snd (markAttendance 5000 (coarseScreen [officeC]))
     = Returned (Some (lowAccuracyAlert 2000))) /\
  location afterCoarseFix = None /\
  canProceed (snd (markAttendance 5000 afterCoarseFix)) = false.
Proof.
  destruct (low_accuracy_warning_only_on_stored_location
              RefHost.sin RefHost.cos RefHost.atan2) as [W D].
  split; [split|].
  - apply (W 5000 (coarseScreen [officeA; officeB]) (mkLocation 0 0 (Some 2000))
             2000); try reflexivity. discriminate.
  - apply (W 5000 (coarseScreen [officeC]) (mkLocation 0 0 (Some 2000))
             2000); try reflexivity. discriminate.
  - destruct (D (serviceReporting (Some 2000)) (screenWith [officeA])
                (mkCoords 0 0 (Some 2000)) 2000 eq_refl eq_refl eq_refl)
      as (L & _ & P).
    split; [exact L | exact (P 5000)].
Defined.

(** A screen that was mounted, fetched a fix of accuracy 12 and was then
    tapped. *)
Lemma sample_reachable :
  reachable
    (fst (markAttendance 5000
       (fst (getLocation (serviceReporting (Some 12))
                         (initialScreen (Some manager) true))))).
Proof.
  eapply reachable_step; [eapply reachable_step; [apply reachable_mount|]|].
  - apply step_getLocation.
  - apply step_markAttendance.
Qed.

Lemma stored_accuracy_never_above_threshold_witness :
  storedAccuracyOk
    (location
       (fst (markAttendance 5000
          (fst (getLocation (serviceReporting (Some 12))
                            (initialScreen (Some manager) true))))))
    = true /\
  (12 <=? ACCEPTABLE_GPS_ACCURACY_THRESHOLD) = true /\
  location afterCoarseFix = None.
Proof.
  destruct (stored_accuracy_never_above_threshold
              RefHost.sin RefHost.cos RefHost.atan2) as (_ & R & A & D).
  split; [exact (R _ sample_reachable)|]. split.
  - exact (proj2 (A (mkLocation 0 0 (Some 12)) 12 eq_refl eq_refl) eq_refl).
  - exact (proj1 (D (serviceReporting (Some 2000)) (screenWith [officeA])
                    (mkCoords 0 0 (Some 2000)) 2000 eq_refl eq_refl eq_refl)).
Defined.

End OnSample.

(** ** The derivative matcher decides acceptance *)

Module RegexFacts.

Import Form.

Lemma matches_nil_nullable r s : matches r s -> s = [] -> nullable r = true.
Proof.
  induction 1; intros E; cbn; try reflexivity; try discriminate.
  - apply app_eq_nil in E as [-> ->]. now rewrite IHmatches1, IHmatches2.
  - now rewrite IHmatches.
  - rewrite IHmatches; [apply orb_true_r | exact E].
Qed.

Lemma nullable_matches r : nullable r = true <-> matches r [].
Proof.
  split; [|intros H; now apply (matches_nil_nullable r [])].
  induction r; cbn; intros H; try discriminate.
  - constructor.
  - apply andb_true_iff in H as [H1 H2].
    change (@nil codeUnit) with (@nil codeUnit ++ []). constructor; auto.
  - apply orb_true_iff in H as [H | H]; [apply MAltL | apply MAltR]; auto.
  - constructor.
  - constructor.
Qed.

(** A non-empty string accepted by [Star r] starts with a non-empty string
    accepted by [r]. *)
Lemma matches_star_cons r c s :
  matches (Star r) (c :: s) ->
  exists s1 s2, s = s1 ++ s2 /\ matches r (c :: s1) /\ matches (Star r) s2.
Proof.
  intros H. remember (Star r) as q eqn:Eq. remember (c :: s) as t eqn:Et.
  revert c s Et. induction H; intros hd tl Et; try discriminate.
  injection Eq as ->.
  destruct s1 as [|c1 s1'].
  - cbn in Et. now apply IHmatches2.
  - cbn in Et. injection Et as -> <-. exists s1', s2. auto.
Qed.

Lemma matches_upto_weaken n r s :
  matches (Upto n r) s -> matches (Upto (S n) r) s.
Proof.
  intros H. remember (Upto n r) as q eqn:Eq. revert n Eq.
  induction H; intros k Eq; try discriminate.
  - injection Eq as <- <-. constructor.
  - injection Eq as <- <-. constructor; auto.
Qed.

Lemma matches_upto_cons n r c s :
  matches (Upto n r) (c :: s) ->
  exists n' s1 s2,
    n = S n' /\ s = s1 ++ s2 /\ matches r (c :: s1) /\ matches (Upto n' r) s2.
Proof.
  intros H. remember (Upto n r) as q eqn:Eq. remember (c :: s) as t eqn:Et.
  revert n c s Eq Et.
  induction H; intros k hd tl Eq Et; try discriminate.
  injection Eq as <- ->.
  destruct s1 as [|c1 s1'].
  - cbn in Et. destruct (IHmatches2 n hd tl eq_refl Et)
      as (n' & t1 & t2 & -> & -> & M1 & M2).
    exists (S n'), t1, t2. repeat split; auto.
    now apply matches_upto_weaken.
  - cbn in Et. injection Et as -> <-. exists n, s1', s2. auto.
Qed.

Lemma matches_seq_inv r1 r2 s :
  matches (Seq r1 r2) s ->
  exists s1 s2, s = s1 ++ s2 /\ matches r1 s1 /\ matches r2 s2.
Proof. inversion 1; subst; eauto. Qed.

Lemma matches_alt_inv r1 r2 s :
  matches (Alt r1 r2) s -> matches r1 s \/ matches r2 s.
Proof. inversion 1; subst; auto. Qed.

Lemma matches_cons_app c (s1 s2 : jsstring) r1 r2 :
  matches r1 (c :: s1) -> matches r2 s2 -> matches (Seq r1 r2) (c :: s1 ++ s2).
Proof.
  intros M1 M2. change (c :: s1 ++ s2) with ((c :: s1) ++ s2).
  now constructor.
Qed.

Lemma deriv_matches c r : forall s, matches (deriv c r) s <-> matches r (c :: s).
Proof.
  induction r as [| |p|r1 IH1 r2 IH2|r1 IH1 r2 IH2|r IH|n r IH]; intros s; cbn.
  - split; inversion 1.
  - split; inversion 1.
  - destruct (p c) eqn:E; split; intros H; inversion H; subst.
    + now constructor.
    + constructor.
    + congruence.
  - assert (Fwd : forall t, matches (Seq (deriv c r1) r2) t ->
                            matches (Seq r1 r2) (c :: t)).
    { intros t H. apply matches_seq_inv in H as (s1 & s2 & -> & M1 & M2).
      apply matches_cons_app; auto. now apply IH1. }
    assert (Bwd : forall t, matches (Seq r1 r2) (c :: t) ->
                            matches (Seq (deriv c r1) r2) t \/
                            (nullable r1 = true /\ matches (deriv c r2) t)).
    { intros t H. apply matches_seq_inv in H as (s1 & s2 & E & M1 & M2).
      destruct s1 as [|c1 s1'].
      - right. cbn in E. subst s2. split; [now apply nullable_matches|].
        now apply IH2.
      - left. cbn in E. injection E as <- ->. constructor; auto.
        now apply IH1. }
    destruct (nullable r1) eqn:N; split; intros H.
    + apply matches_alt_inv in H as [H | H]; [now apply Fwd|].
      change (c :: s) with ([] ++ c :: s). constructor.
      * now apply nullable_matches.
      * now apply IH2.
    + destruct (Bwd s H) as [M | [_ M]]; [now apply MAltL | now apply MAltR].
    + now apply Fwd.
    + destruct (Bwd s H) as [M | [E _]]; [exact M | discriminate].
  - split; intros H; apply matches_alt_inv in H as [H | H].
    + apply MAltL. now apply IH1.
    + apply MAltR. now apply IH2.
    + apply MAltL. now apply IH1.
    + apply MAltR. now apply IH2.
  - split; intros H.
    + apply matches_seq_inv in H as (s1 & s2 & -> & M1 & M2).
      change (c :: s1 ++ s2) with ((c :: s1) ++ s2).
      constructor; auto. now apply IH.
    + destruct (matches_star_cons r c s H) as (s1 & s2 & -> & M1 & M2).
      constructor; auto. now apply IH.
  - split; intros H.
    + destruct n as [|n']; [inversion H|].
      apply matches_seq_inv in H as (s1 & s2 & -> & M1 & M2).
      change (c :: s1 ++ s2) with ((c :: s1) ++ s2).
      constructor; auto. now apply IH.
    + destruct (matches_upto_cons n r c s H)
        as (n' & s1 & s2 & -> & -> & M1 & M2).
      constructor; auto. now apply IH.
Qed.

Lemma matches_Seq_Eps r s : matches (Seq Eps r) s <-> matches r s.
Proof.
  split; intros H.
  - apply matches_seq_inv in H as (s1 & s2 & -> & M1 & M2).
    inversion M1; subst. exact M2.
  - change s with ([] ++ s). constructor; [constructor | exact H].
Qed.

Ltac nothing_matches :=
  solve [ split;
          [ inversion 1
          | let H := fresh in
            let M1 := fresh in
            let M2 := fresh in
            intros H; apply matches_seq_inv in H as (? & ? & _ & M1 & M2);
            solve [inversion M1 | inversion M2] ] ].

Lemma mkSeq_matches a b s : matches (mkSeq a b) s <-> matches (Seq a b) s.
Proof.
  destruct a, b; try reflexivity; try nothing_matches;
    symmetry; apply matches_Seq_Eps.
Qed.

Lemma mkAlt_matches a b s : matches (mkAlt a b) s <-> matches (Alt a b) s.
Proof.
  destruct a, b; try reflexivity;
    (split; intros H;
     [ solve [now apply MAltL | now apply MAltR]
     | apply matches_alt_inv in H as [H | H]; solve [exact H | inversion H] ]).
Qed.

Lemma prune_matches r : forall s, matches (prune r) s <-> matches r s.
Proof.
  induction r as [| |p|r1 IH1 r2 IH2|r1 IH1 r2 IH2|r IH|n r IH]; intros s;
    try reflexivity; cbn [prune].
  - rewrite mkSeq_matches. split; intros H;
      apply matches_seq_inv in H as (s1 & s2 & -> & M1 & M2);
      constructor; try apply IH1; try apply IH2; auto.
  - rewrite mkAlt_matches. split; intros H;
      apply matches_alt_inv in H as [H | H];
      solve [apply MAltL; apply IH1; exact H | apply MAltR; apply IH2; exact H].
Qed.

(** The matcher accepts exactly the strings of the expression's language. *)
Lemma test_matches s : forall r, test r s = true <-> matches r s.
Proof.
  induction s as [|c s IH]; intros r; cbn.
  - apply nullable_matches.
  - now rewrite IH, prune_matches, deriv_matches.
Qed.

End RegexFacts.

(** ** The phone check of the booking form *)

Module FormFacts.

Import Form.

Example emailRegex_accepts :
  test emailRegex (str "asha.rao+visits@mail.example.com") = true.
Proof. vm_compute; reflexivity. Qed.

Example emailRegex_rejects_leading_dash :
  test emailRegex (str "asha@-example.com") = false.
Proof. vm_compute; reflexivity. Qed.

Example emailRegex_rejects_space :
  test emailRegex (str "asha rao@example.com") = false.
Proof. vm_compute; reflexivity. Qed.

Example trim_strips_both_ends :
  trim (str "  98765 43210 ") = str "98765 43210".
Proof. vm_compute; reflexivity. Qed.

Lemma exactly_ten n :
  (n <? 10)%nat || (10 <? n)%nat = false <-> n = 10%nat.
Proof.
  rewrite orb_false_iff, !Nat.ltb_ge. lia.
Qed.

Lemma matches_times p n : forall s,
  List.length s = n -> Forall (fun c => p c = true) s ->
  matches (Times n (Class p)) s.
Proof.
  induction n as [|n IH]; intros [|c s] L F; try discriminate; cbn.
  - constructor.
  - inversion F; subst. change (c :: s) with ([c] ++ s).
    constructor; [now constructor | apply IH; auto].
Qed.

Lemma matches_upto p n : forall s,
  (List.length s <= n)%nat -> Forall (fun c => p c = true) s ->
  matches (Upto n (Class p)) s.
Proof.
  induction n as [|n IH]; intros [|c s] L F; try constructor.
  - cbn in L. lia.
  - inversion F; subst. change (c :: s) with ([c] ++ s).
    constructor; [now constructor | apply IH; auto; cbn in L; lia].
Qed.

(** [/^\d{10,15}$/] accepts every string of 10 to 15 digits, so what
    [stripNonDigits] leaves passes it whenever its length is in that range. *)
Lemma digitsRegex_accepts s :
  (10 <= List.length (stripNonDigits s) <= 15)%nat ->
  test digitsRegex (stripNonDigits s) = true.
Proof.
  intros L. apply RegexFacts.test_matches.
  set (d := stripNonDigits s) in *.
  assert (F : Forall (fun c => isDigit c = true) d).
  { apply Forall_forall. intros c H. now apply filter_In in H. }
  assert (E : d = firstn 10 d ++ skipn 10 d) by (symmetry; apply firstn_skipn).
  rewrite E in F. apply Forall_app in F as [F1 F2].
  rewrite E. unfold digitsRegex, Range. constructor.
  - apply matches_times; [rewrite length_firstn; lia | exact F1].
  - apply matches_upto; [rewrite length_skipn; cbn; lia | exact F2].
Qed.

(** C7. [validateForm] accepts a form only when its phone number, all
    characters other than digits deleted, has exactly ten digits.  A phone
    number of 11 to 15 digits is rejected; when the checks before the phone
    check pass, it is rejected with the message that names a range of 10 to
    15 digits, although the pattern [^\d{10,15}$] checked next accepts
    it. *)
Theorem validateForm_accepts_exactly_ten_digits :
  (forall form plotId,
     validateForm form plotId = Valid ->
     List.length (stripNonDigits (phone form)) = 10%nat) /\
  (forall form plotId,
     (11 <= List.length (stripNonDigits (phone form)) <= 15)%nat ->
     isValid (validateForm form plotId) = false) /\
  (forall form plotId,
     nonEmpty (trim (name form)) = true ->
     nonEmpty (trim (email form)) = true ->
     nonEmpty (trim (phone form)) = true ->
     test emailRegex (email form) = true ->
     (11 <= List.length (stripNonDigits (phone form)) <= 15)%nat ->
     validateForm form plotId =
     Invalid "Validation Error"
             "Phone number must be between 10 and 15 digits" /\
     test digitsRegex (stripNonDigits (phone form)) = true).
Proof.
  split; [|split].
  - intros form plotId. unfold validateForm.
    destruct (negb (nonEmpty (trim (name form)))); [discriminate|].
    destruct (negb (nonEmpty (trim (email form)))); [discriminate|].
    destruct (negb (nonEmpty (trim (phone form)))); [discriminate|].
    destruct (negb (test emailRegex (email form))); [discriminate|].
    cbv zeta.
    destruct (_ || _) eqn:E; [discriminate|].
    intros _. now apply exactly_ten.
  - intros form plotId H. unfold validateForm.
    destruct (negb (nonEmpty (trim (name form)))); [reflexivity|].
    destruct (negb (nonEmpty (trim (email form)))); [reflexivity|].
    destruct (negb (nonEmpty (trim (phone form)))); [reflexivity|].
    destruct (negb (test emailRegex (email form))); [reflexivity|].
    cbv zeta.
    destruct (_ || _) eqn:E; [reflexivity|].
    apply exactly_ten in E. lia.
  - intros form plotId Hn He Hp Hr H.
    split; [|apply digitsRegex_accepts; lia].
    unfold validateForm.
    rewrite Hn, He, Hp, Hr. cbn [negb]. cbv zeta.
    destruct (_ || _) eqn:E; [reflexivity|].
    apply exactly_ten in E. lia.
Qed.

Lemma validateForm_accepts_exactly_ten_digits_witness :
  validateForm Sample.visitFormLocal (Single (str "plot-7")) = Valid /\
  List.length (stripNonDigits (phone Sample.visitFormLocal)) = 10%nat /\
  List.length (stripNonDigits (phone Sample.visitForm)) = 12%nat /\
  isValid (validateForm Sample.visitForm (Single (str "plot-7"))) = false /\
  validateForm Sample.visitForm (Single (str "plot-7")) =
    Invalid "Validation Error" "Phone number must be between 10 and 15 digits" /\
  test digitsRegex (stripNonDigits (phone Sample.visitForm)) = true.
Proof.
  destruct validateForm_accepts_exactly_ten_digits as (A & R & M).
  assert (V : validateForm Sample.visitFormLocal (Single (str "plot-7")) = Valid)
    by (vm_compute; reflexivity).
  assert (L : (11 <= List.length (stripNonDigits (phone Sample.visitForm)) <= 15)%nat)
    by (vm_compute; lia).
  split; [exact V|]. split; [exact (A _ _ V)|]. split; [reflexivity|].
  split; [exact (R _ (Single (str "plot-7")) L)|].
  apply M; auto; vm_compute; reflexivity.
Defined.

End FormFacts.

(** ** Further properties of the attendance screen *)

(** X1. [getLocation] ends in one of two ways, whatever the location
    service answers and whatever the state was: with a stored location, no
    error, and [granted] as the recorded permission status, the location
    being the reported fix; or with no location and an error to show. *)
Theorem getLocation_location_or_error :
  forall svc st,
    match location (fst (getLocation svc st)) with
    | Some l =>
        error (fst (getLocation svc st)) = None /\
        locationPermissionStatus (fst (getLocation svc st)) = Some granted /\
        exists c,
          getCurrentPositionAsync svc = Some c /\
          l = mkLocation (coords_latitude c) (coords_longitude c)
                         (coords_accuracy c)
    | None => shows (error (fst (getLocation svc st))) = true
    end.
Proof.
  intros svc st.
  assert (P : forall s,
    error s = None -> locationPermissionStatus s = Some granted ->
    match location (fst (getLocation_position svc s)) with
    | Some l =>
        error (fst (getLocation_position svc s)) = None /\
        locationPermissionStatus (fst (getLocation_position svc s))
          = Some granted /\
        exists c,
          getCurrentPositionAsync svc = Some c /\
          l = mkLocation (coords_latitude c) (coords_longitude c)
                         (coords_accuracy c)
    | None => shows (error (fst (getLocation_position svc s))) = true
    end).
  { intros s He Hp. unfold getLocation_position, getLocation_catch.
    destruct (getCurrentPositionAsync svc) as [c|]; [|reflexivity].
    destruct (exceedsAccuracyThreshold (coords_accuracy c)) eqn:E.
    - destruct (coords_accuracy c); [reflexivity | discriminate].
    - cbn. repeat split; eauto. }
  unfold getLocation, getLocation_body, getLocation_catch.
  destruct (getForegroundPermissionsAsync svc) as [[| |]|];
    try reflexivity; try (apply P; reflexivity);
    cbn [is_granted negb];
    destruct (requestForegroundPermissionsAsync svc) as [[| |]|];
    try reflexivity; apply P; reflexivity.
Qed.

(** A text with a first character is not the empty text. *)
Lemma or_text_shown x d :
  String.eqb d "" = false -> String.eqb (or_text x d) "" = false.
Proof.
  intros H. destruct x as [s|]; cbn; [|exact H].
  destruct (String.eqb s "") eqn:E; [exact H | exact E].
Qed.

Lemma statusErrorMessage_shown status b :
  String.eqb (statusErrorMessage status b) "" = false.
Proof.
  unfold statusErrorMessage.
  destruct (Nat.eqb status 404); [reflexivity|].
  destruct (Nat.eqb status 401); [reflexivity|].
  destruct (Nat.leb 500 status); [reflexivity|].
  apply or_text_shown, or_text_shown. reflexivity.
Qed.

(** X4. A signed-in user's office list after [fetchAssignedOffices] holds
    nothing but what the request just delivered: it is non-empty only for
    an ok status with a non-empty array as body, and then it is that array
    and the error is left as it was; in every other case the list is
    emptied, whatever it held before. *)
Theorem offices_only_from_ok_array :
  forall f st,
    hasUserId st = true ->
    let st' := fetchAssignedOffices (officesResponse f) st in
    (assignedOffices st' = [] \/
     exists status,
       f = FetchResponded status (JsonArray (assignedOffices st')) /\
       responseOk status = true /\ error st' = error st) /\
    (forall status data,
       f = FetchResponded status (JsonArray data) ->
       responseOk status = true ->
       assignedOffices st' = data).
Proof.
  intros f st Hu. cbv zeta. unfold fetchAssignedOffices. rewrite Hu. split.
  - destruct f as [[msg|] | status body]; [now left | now left |].
    destruct body as [|e|e m|data]; cbn [officesResponse];
      try (destruct (negb (responseOk status)); now left).
    destruct (responseOk status) eqn:Ok; [|now left].
    cbn [negb fetchAssignedOffices_body].
    destruct data as [|o l]; [now left|].
    right. exists status. cbn. auto.
  - intros status data -> Ok. cbn [officesResponse]. rewrite Ok.
    cbn [negb fetchAssignedOffices_body].
    destruct data; reflexivity.
Qed.

(** X5. [fetchAssignedOffices] does not fail silently, but for one case:
    whenever it leaves a signed-in user with an empty office list, an error
    is shown, unless what was thrown is an [Error] with an empty message,
    which empties the list and shows nothing. *)
Theorem empty_offices_come_with_an_error :
  forall f st,
    hasUserId st = true ->
    let st' := fetchAssignedOffices (officesResponse f) st in
    assignedOffices st' = [] ->
    shows (error st') = hasText f.
Proof.
  intros f st Hu. cbv zeta. unfold fetchAssignedOffices. rewrite Hu.
  destruct f as [[msg|] | status body]; [reflexivity | reflexivity |].
  destruct body as [|e|e m|data]; cbn [officesResponse hasText].
  - reflexivity.
  - destruct (responseOk status); reflexivity.
  - destruct (responseOk status); cbn; [reflexivity|].
    now rewrite statusErrorMessage_shown.
  - destruct (responseOk status); cbn [negb fetchAssignedOffices_body].
    + destruct data; [reflexivity | discriminate].
    + cbn. now rewrite statusErrorMessage_shown.
Qed.

(** What [getLocation] does to the error depends on the service alone, and
    it sets one exactly when it stores no location. *)
Lemma getLocation_body_error svc st :
  error (fst (getLocation_body svc st)) =
  if locationFails svc then error (fst (getLocation svc (initialScreen None false)))
  else error st.
Proof.
  unfold locationFails, getLocation, getLocation_body, getLocation_position,
    getLocation_catch.
  destruct (getForegroundPermissionsAsync svc) as [s1|]; [|reflexivity].
  destruct (negb (is_granted s1)).
  - destruct (requestForegroundPermissionsAsync svc) as [s2|]; [|reflexivity].
    destruct (negb (is_granted s2)); [reflexivity|].
    destruct (getCurrentPositionAsync svc) as [c|]; [|reflexivity].
    destruct (exceedsAccuracyThreshold _); reflexivity.
  - destruct (getCurrentPositionAsync svc) as [c|]; [|reflexivity].
    destruct (exceedsAccuracyThreshold _); reflexivity.
Qed.

(** [getLocation] touches three cells of the state: the location, the
    error and the permission status; what it stores and shows does not
    depend on the state. *)
Lemma getLocation_body_cells svc st :
  let r := getLocation_body svc st in
  let r0 := getLocation svc (initialScreen None false) in
  snd r = snd r0 /\
  location (fst r) = location (fst r0) /\
  user (fst r) = user st /\
  isLoaded (fst r) = isLoaded st /\
  assignedOffices (fst r) = assignedOffices st /\
  loading (fst r) = loading st /\
  marking (fst r) = marking st /\
  refreshing (fst r) = refreshing st /\
  lastTap (fst r) = lastTap st /\
  locationPermissionStatus (fst r) =
    match locationPermissionStatus (fst r0) with
    | Some s => Some s
    | None => locationPermissionStatus st
    end.
Proof.
  cbv zeta.
  unfold getLocation, getLocation_body, getLocation_position,
    getLocation_catch.
  destruct (getForegroundPermissionsAsync svc) as [s1|];
    [|cbn; repeat split].
  destruct (negb (is_granted s1)).
  - destruct (requestForegroundPermissionsAsync svc) as [s2|];
      [|cbn; repeat split].
    destruct (negb (is_granted s2)); [cbn; repeat split|].
    destruct (getCurrentPositionAsync svc) as [c|]; [|cbn; repeat split].
    destruct (exceedsAccuracyThreshold _); cbn; repeat split.
  - destruct (getCurrentPositionAsync svc) as [c|]; [|cbn; repeat split].
    destruct (exceedsAccuracyThreshold _); cbn; repeat split.
Qed.

(** [initializeData] with its synchronous prefix evaluated: both requests
    continue from the state with [loading] set and the error cleared. *)
Lemma initializeData_eq order resp svc st :
  initializeData order resp svc st =
  let s0 := setError None (setLoading true st) in
  let fin s := if hasUserId st then fetchAssignedOffices_body resp s else s in
  let '(s, alerts) :=
    match order with
    | OfficesFirst => getLocation_body svc (fin s0)
    | LocationFirst =>
        let '(s, shown) := getLocation_body svc s0 in (fin s, shown)
    end in
  (setLoading false s, alerts).
Proof.
  unfold initializeData.
  change (hasUserId (setError None (setLoading true st))) with (hasUserId st).
  destruct (hasUserId st) eqn:Hu; cbv iota zeta.
  - change (hasUserId (setError None (setLoading true st)))
      with (hasUserId st).
    rewrite Hu. reflexivity.
  - change (hasUserId (setError (Some (Text "Authentication required."))
                         (setError None (setLoading true st))))
      with (hasUserId st).
    rewrite Hu. reflexivity.
Qed.

(** X6. The order in which the two requests of [initializeData] settle
    shows in one place only.  Both orders show the same alerts and leave
    the same location, office list, permission status and flags.  They
    leave the same error as well, unless both requests fail: then the
    error is that of the request that settled last, the location's when
    the offices settle first and the offices' when the location does. *)
Theorem settling_order_shows_only_in_the_error :
  forall resp svc st,
    let a := initializeData OfficesFirst resp svc st in
    let b := initializeData LocationFirst resp svc st in
    snd a = snd b /\
    location (fst a) = location (fst b) /\
    assignedOffices (fst a) = assignedOffices (fst b) /\
    locationPermissionStatus (fst a) = locationPermissionStatus (fst b) /\
    loading (fst a) = false /\ loading (fst b) = false /\
    user (fst a) = user st /\ user (fst b) = user st /\
    if hasUserId st && officesFail resp && locationFails svc
    then error (fst a) = error (fst (getLocation svc st)) /\
         error (fst b) = error (fetchAssignedOffices_body resp st)
    else error (fst a) = error (fst b).
Proof.
  intros resp svc st. cbv zeta. rewrite !initializeData_eq. cbv zeta.
  set (s0 := setError None (setLoading true st)).
  set (fin := fun s => if hasUserId st then fetchAssignedOffices_body resp s
                       else s).
  assert (Ecells : forall s,
    user (fin s) = user s /\ location (fin s) = location s /\
    locationPermissionStatus (fin s) = locationPermissionStatus s /\
    loading (fin s) = loading s /\
    assignedOffices (fin s) =
      (if hasUserId st
       then assignedOffices (fetchAssignedOffices_body resp st)
       else assignedOffices s) /\
    error (fin s) =
      (if hasUserId st && officesFail resp
       then error (fetchAssignedOffices_body resp st) else error s)).
  { intros s. unfold fin. destruct (hasUserId st); [|cbn; repeat split].
    destruct resp as [msg | [|o l]]; cbn; repeat split. }
  pose proof (getLocation_body_cells svc (fin s0)) as Ca.
  pose proof (getLocation_body_cells svc s0) as Cb.
  pose proof (getLocation_body_error svc (fin s0)) as Ea.
  pose proof (getLocation_body_error svc s0) as Eb.
  pose proof (getLocation_body_error svc (setError None st)) as Est.
  cbv zeta in Ca, Cb.
  destruct (getLocation_body svc (fin s0)) as [sa alertsA].
  destruct (getLocation_body svc s0) as [sb alertsB].
  cbn [fst snd] in *.
  destruct Ca as (Ca1 & Ca2 & Ca3 & _ & Ca5 & Ca6 & _ & _ & _ & Ca10).
  destruct Cb as (Cb1 & Cb2 & Cb3 & _ & Cb5 & Cb6 & _ & _ & _ & Cb10).
  destruct (Ecells s0) as (F1 & F2 & F3 & F4 & F5 & F6).
  destruct (Ecells sb) as (G1 & G2 & G3 & G4 & G5 & G6).
  cbn [fst snd user location assignedOffices locationPermissionStatus loading
       error setLoading].
  split; [congruence|]. split; [congruence|].
  split.
  { rewrite Ca5, F5, G5, Cb5. destruct (hasUserId st); reflexivity. }
  split; [rewrite Ca10, G3, Cb10, F3; reflexivity|].
  split; [reflexivity|]. split; [reflexivity|].
  split; [rewrite Ca3, F1; reflexivity|].
  split; [rewrite G1, Cb3; reflexivity|].
  unfold getLocation. rewrite Est, Ea, G6, Eb, F6.
  change (error s0) with (@None Message).
  destruct (hasUserId st && officesFail resp) eqn:Eo;
    destruct (locationFails svc); cbn [andb]; auto.
Qed.

(** X7. Run through [initializeData], the guard of [fetchAssignedOffices]
    leaves no trace: without a user id the offices are not touched, and the
    error [Authentication required.] the guard sets is cleared by
    [getLocation] before anything is awaited, so that the error left is
    [getLocation]'s, none at all where a location is stored. *)
Theorem initializeData_drops_the_authentication_error :
  forall order resp svc st,
    hasUserId st = false ->
    let st' := fst (initializeData order resp svc st) in
    assignedOffices st' = assignedOffices st /\
    error st' = error (fst (getLocation svc st)) /\
    error st' <> Some (Text "Authentication required.") /\
    error (fetchAssignedOffices resp st)
      = Some (Text "Authentication required.").
Proof.
  intros order resp svc st Hu. cbv zeta. rewrite initializeData_eq.
  cbv zeta. rewrite Hu.
  set (s0 := setError None (setLoading true st)).
  pose proof (getLocation_body_cells svc s0) as C.
  pose proof (getLocation_body_error svc s0) as E.
  pose proof (getLocation_body_error svc (setError None st)) as Est.
  cbv zeta in C.
  assert (error (fst (let '(s, alerts) :=
              match order with
              | OfficesFirst => getLocation_body svc s0
              | LocationFirst =>
                  let '(s, shown) := getLocation_body svc s0 in (s, shown)
              end in (setLoading false s, alerts)))
          = error (fst (getLocation_body svc s0)) /\
          assignedOffices (fst (let '(s, alerts) :=
              match order with
              | OfficesFirst => getLocation_body svc s0
              | LocationFirst =>
                  let '(s, shown) := getLocation_body svc s0 in (s, shown)
              end in (setLoading false s, alerts)))
          = assignedOffices (fst (getLocation_body svc s0))) as [-> ->].
  { destruct order; destruct (getLocation_body svc s0); now split. }
  destruct C as (_ & _ & _ & _ & -> & _).
  split; [reflexivity|].
  unfold getLocation at 1. rewrite Est, E. cbn [error setError s0].
  split; [reflexivity|].
  split.
  - destruct (locationFails svc); [|discriminate].
    unfold getLocation, getLocation_body, getLocation_position,
      getLocation_catch.
    destruct (getForegroundPermissionsAsync svc) as [s1|]; [|discriminate].
    destruct (negb (is_granted s1)).
    + destruct (requestForegroundPermissionsAsync svc) as [s2|];
        [|discriminate].
      destruct (negb (is_granted s2)); [discriminate|].
      destruct (getCurrentPositionAsync svc) as [c|]; [|discriminate].
      destruct (exceedsAccuracyThreshold _); [|discriminate].
      cbn. destruct (coords_accuracy c); discriminate.
    + destruct (getCurrentPositionAsync svc) as [c|]; [|discriminate].
      destruct (exceedsAccuracyThreshold _); [|discriminate].
      cbn. destruct (coords_accuracy c); discriminate.
  - unfold fetchAssignedOffices. rewrite Hu. reflexivity.
Qed.

Section AttendanceMore.

Variables Math_sin Math_cos : number -> number.
Variable Math_atan2 : number -> number -> number.

Local Abbreviation markAttendance :=
  (markAttendance Math_sin Math_cos Math_atan2).
Local Abbreviation reachable := (reachable Math_sin Math_cos Math_atan2).

Lemma reachable_accuracy st :
  reachable st -> storedAccuracyOk (location st) = true.
Proof.
  induction 1 as [u loaded | st st' _ IH Hstep]; [reflexivity|].
  eapply step_keeps_accuracy; eauto.
Qed.

(** X2. In no state the screen can reach does [markAttendance] show the
    low-accuracy alert: a location whose accuracy is above the threshold is
    never stored, so that branch cannot be taken. *)
Theorem low_accuracy_alert_unreachable :
  forall st,
    reachable st ->
    forall now a,
      snd (markAttendance now st) <> Returned (Some (lowAccuracyAlert a)).
Proof.
  intros st R now a. apply reachable_accuracy in R.
  unfold markAttendance.
  destruct (now - lastTap st <? 1500); [discriminate|].
  cbn [user setLastTap location assignedOffices].
  destruct (user st); [|discriminate].
  destruct (location st) as [loc|]; [|discriminate].
  destruct (Nat.eqb _ 0); [discriminate|].
  destruct (exceedsAccuracyThreshold (accuracy loc)) eqn:E.
  - exfalso. cbn in R. destruct (accuracy loc) as [x|]; [|discriminate].
    cbn in E. apply andb_true_iff in E as [_ E]. now rewrite E in R.
  - destruct (office _); [|discriminate].
    destruct (_ <? distance _); discriminate.
Qed.

(** [markAttendance] changes nothing but the time of the last tap. *)
Lemma markAttendance_only_taps now st :
  user (fst (markAttendance now st)) = user st /\
  assignedOffices (fst (markAttendance now st)) = assignedOffices st.
Proof.
  unfold markAttendance.
  destruct (now - lastTap st <? 1500); [now split|].
  cbn [user setLastTap location assignedOffices].
  destruct (user st) eqn:Eu; [|now split].
  destruct (location st) as [loc|]; [|now split].
  destruct (Nat.eqb _ 0); [now split|].
  destruct (exceedsAccuracyThreshold _); [now split|].
  destruct (office _); [|now split].
  destruct (_ <? distance _); now split.
Qed.

(** X3. Whenever [markAttendance] goes on to [proceedWithAttendance], or
    shows an alert with a button that does, the guard of
    [proceedWithAttendance] passes on the state it leaves: a request is
    built, and it carries the user's id and the stored position, for the
    regular and for the on-duty type alike.  The on-duty button, which
    calls [proceedWithAttendance] directly, thus sends the same request from
    the state before, also where [markAttendance] stops at an alert. *)
Theorem proceeding_builds_the_request :
  forall now st,
    canProceed (snd (markAttendance now st)) = true ->
    exists u loc,
      user st = Some u /\ location st = Some loc /\
      forall attendanceType t1 platform t2,
        attendanceRequest attendanceType t1 platform t2
                          (fst (markAttendance now st))
        = Some (mkAttendanceRequest (userId u) (lat loc) (lng loc)
                  (accuracy loc) t1 platform t2 attendanceType) /\
        attendanceRequest attendanceType t1 platform t2 st
        = Some (mkAttendanceRequest (userId u) (lat loc) (lng loc)
                  (accuracy loc) t1 platform t2 attendanceType).
Proof.
  intros now st H.
  assert (exists u loc o l, user st = Some u /\ location st = Some loc /\
                            assignedOffices st = o :: l)
    as (u & loc & o & l & Eu & El & Eo).
  { revert H. unfold markAttendance.
    destruct (now - lastTap st <? 1500); [discriminate|].
    cbn [user setLastTap location assignedOffices].
    destruct (user st) as [u|]; [|discriminate].
    destruct (location st) as [loc|]; [|discriminate].
    destruct (assignedOffices st) as [|o l]; [discriminate|].
    intros _. now exists u, loc, o, l. }
  exists u, loc. split; [exact Eu|]. split; [exact El|].
  intros ty t1 p t2. unfold attendanceRequest.
  destruct (markAttendance_only_taps now st) as [-> ->].
  rewrite location_markAttendance, Eu, El, Eo. now split.
Qed.

(** X8. What a tap on an enabled button can lead to.  In a reachable
    state of a signed-in user whose buttons are enabled, a tap that passes
    the debounce never ends at the alerts for a missing location, for
    missing offices or for low accuracy: where the resolver matched an
    office the tap proceeds or shows the out-of-range alert, as the distance
    compares with the threshold, and where it matched none the tap reports
    that no nearest office was found. *)
Theorem enabled_tap_outcomes :
  forall st,
    reachable st ->
    signedIn st = true ->
    actionsDisabled st = false ->
    forall now,
      (now - lastTap st <? 1500) = false ->
      let r := getDistanceToNearestOffice Math_sin Math_cos Math_atan2
                 (location st) (assignedOffices st) in
      snd (markAttendance now st) =
      match office r with
      | Some o =>
          if requiredGeofenceDistance (Some o) <? distance r
          then Returned (Some (outOfRangeAlert o (distance r)
                                 (requiredGeofenceDistance (Some o))))
          else Proceeds
      | None =>
          Returned (Some (mkAlert "Error"
                            (Text "Unable to find nearest office.") []))
      end.
Proof.
  intros st R Hu Hd now Htap. apply reachable_accuracy in R.
  unfold actionsDisabled in Hd.
  apply orb_false_iff in Hd as [Hd Ho].
  apply orb_false_iff in Hd as [_ Hl].
  cbv zeta. unfold markAttendance. rewrite Htap.
  cbn [user setLastTap location assignedOffices].
  unfold signedIn in Hu. destruct (user st); [|discriminate].
  destruct (location st) as [loc|]; [|discriminate].
  rewrite Ho.
  assert (exceedsAccuracyThreshold (accuracy loc) = false) as ->.
  { cbn in R. unfold exceedsAccuracyThreshold.
    destruct (accuracy loc) as [x|]; [|reflexivity].
    destruct (ACCEPTABLE_GPS_ACCURACY_THRESHOLD <? x); [discriminate|].
    apply andb_false_r. }
  cbv zeta. destruct (office _); [|reflexivity].
  destruct (_ <? distance _); reflexivity.
Qed.

End AttendanceMore.

(** ** These properties at the sample data, on the reference host *)

Module OnSampleMore.

Import Sample.

Local Abbreviation markAttendance :=
  (markAttendance RefHost.sin RefHost.cos RefHost.atan2).
Local Abbreviation reachable :=
  (reachable RefHost.sin RefHost.cos RefHost.atan2).

Import SampleMore.

Lemma arrived_reachable : reachable arrived.
Proof.
  eapply reachable_step; [eapply reachable_step; [apply reachable_mount|]|].
  - apply step_fetchAssignedOffices.
  - apply step_getLocation.
Qed.

Lemma low_accuracy_alert_unreachable_witness :
  snd (markAttendance 5000 arrived)
  <> Returned (Some (lowAccuracyAlert 12)).
Proof.
  exact (low_accuracy_alert_unreachable RefHost.sin RefHost.cos RefHost.atan2
           arrived arrived_reachable 5000 12).
Defined.

Lemma proceeding_builds_the_request_witness :
  canProceed (snd (markAttendance 5000 (screenWith [officeC]))) = true /\
  attendanceRequest "ON_DUTY" "t1" "android" "t2" (screenWith [officeC])
  = Some (mkAttendanceRequest "user_1" 0 0 (Some 12) "t1" "android" "t2"
            "ON_DUTY").
Proof.
  assert (canProceed (snd (markAttendance 5000 (screenWith [officeC]))) = true)
    as H by (vm_compute; reflexivity).
  split; [exact H|].
  destruct (proceeding_builds_the_request
              RefHost.sin RefHost.cos RefHost.atan2 5000 (screenWith [officeC]) H)
    as (u & loc & Eu & El & K).
  injection Eu as <-. injection El as <-.
  exact (proj2 (K "ON_DUTY" "t1" "android" "t2")%string).
Defined.

Lemma offices_only_from_ok_array_witness :
  hasUserId (screenWith [officeB]) = true /\
  assignedOffices
    (fetchAssignedOffices
       (officesResponse (FetchResponded 200 (JsonArray [officeA])))
       (screenWith [officeB])) = [officeA].
Proof.
  split; [reflexivity|].
  exact (proj2 (offices_only_from_ok_array
                  (FetchResponded 200 (JsonArray [officeA]))
                  (screenWith [officeB]) eq_refl)
               200%nat [officeA] eq_refl eq_refl).
Defined.

Lemma empty_offices_come_with_an_error_witness :
  shows (error
    (fetchAssignedOffices
       (officesResponse
          (FetchResponded 404 (JsonFields (Some "not found"%string) None)))
       (screenWith [officeB]))) = true.
Proof.
  exact (empty_offices_come_with_an_error
           (FetchResponded 404 (JsonFields (Some "not found"%string) None))
           (screenWith [officeB]) eq_refl eq_refl).
Defined.

Lemma initializeData_drops_the_authentication_error_witness :
  hasUserId (initialScreen None true) = false /\
  error (fst (initializeData OfficesFirst (OfficesData [officeA])
                (serviceReporting (Some 12)) (initialScreen None true)))
  = None.
Proof.
  split; [reflexivity|].
  destruct (initializeData_drops_the_authentication_error
              OfficesFirst (OfficesData [officeA]) (serviceReporting (Some 12))
              (initialScreen None true) eq_refl) as (_ & E & _).
  rewrite E. reflexivity.
Defined.

Lemma enabled_tap_outcomes_witness :
  actionsDisabled arrived = false /\
  snd (markAttendance 5000 arrived) = Proceeds.
Proof.
  split; [reflexivity|].
  rewrite (enabled_tap_outcomes RefHost.sin RefHost.cos RefHost.atan2
             arrived arrived_reachable eq_refl eq_refl 5000 eq_refl).
  vm_compute. reflexivity.
Defined.

End OnSampleMore.


(** ** What the booking form submits *)

Module BookVisitFacts.

Import Form BookVisit.

Local Open Scope N_scope.

Lemma ascii_enumerated (Q : codeUnit -> bool) :
  forallb Q asciiUnits = true -> forall c, c < 128 -> Q c = true.
Proof.
  intros H c Hc. rewrite forallb_forall in H. apply H.
  unfold asciiUnits. apply in_map_iff. exists (N.to_nat c).
  split; [apply Nnat.N2Nat.id | apply in_seq; lia].
Qed.

(** A string a regular expression accepts is made of characters of its
    classes. *)
Lemma matches_classes (P : codeUnit -> bool) r s :
  classes (fun p => forall c, p c = true -> P c = true) r ->
  matches r s -> forallb P s = true.
Proof.
  intros C M. induction M; cbn in C; try reflexivity.
  - cbn. now rewrite (C c H).
  - rewrite forallb_app, IHM1, IHM2; tauto.
  - tauto.
  - tauto.
  - rewrite forallb_app, IHM1, IHM2; tauto.
  - rewrite forallb_app, IHM1, IHM2; tauto.
Qed.

(** A regular expression whose classes are closed under a map of the
    characters accepts the image of every string it accepts. *)
Lemma matches_map (f : codeUnit -> codeUnit) r s :
  classes (fun p => forall c, p c = true -> p (f c) = true) r ->
  matches r s -> matches r (List.map f s).
Proof.
  intros C M. induction M; cbn in C; cbn [List.map];
    rewrite ?map_app; first [constructor; tauto | constructor; auto].
Qed.

Ltac to_arith H :=
  cbv [isLocalPart isAlnum isAlnumDash isDigit isAscii between existsb] in H;
  repeat rewrite ?orb_true_iff, ?andb_true_iff, ?N.leb_le, ?N.eqb_eq,
                 ?orb_false_r in H.

Lemma isLocalPart_ascii c : isLocalPart c = true -> c < 128.
Proof. intros H. to_arith H. lia. Qed.

Lemma isAlnumDash_ascii c : isAlnumDash c = true -> c < 128.
Proof. intros H. to_arith H. lia. Qed.

Lemma isAlnum_ascii c : isAlnum c = true -> c < 128.
Proof. intros H. to_arith H. lia. Qed.

(** What a check by enumeration gives for each class of [emailRegex]. *)
Lemma emailRegex_classes (Q : (codeUnit -> bool) -> codeUnit -> bool) :
  forallb (fun c => implb (isLocalPart c) (Q isLocalPart c)) asciiUnits = true ->
  forallb (fun c => implb (isAlnum c) (Q isAlnum c)) asciiUnits = true ->
  forallb (fun c => implb (isAlnumDash c) (Q isAlnumDash c)) asciiUnits = true ->
  Q (N.eqb 64) 64 = true ->
  Q (N.eqb 46) 46 = true ->
  classes (fun p => forall c, p c = true -> Q p c = true) emailRegex.
Proof.
  intros L A D At Dot.
  assert (HL : forall c, isLocalPart c = true -> Q isLocalPart c = true).
  { intros c H. pose proof (ascii_enumerated _ L c (isLocalPart_ascii c H)) as K.
    cbv beta in K. now rewrite H in K. }
  assert (HA : forall c, isAlnum c = true -> Q isAlnum c = true).
  { intros c H. pose proof (ascii_enumerated _ A c (isAlnum_ascii c H)) as K.
    cbv beta in K. now rewrite H in K. }
  assert (HD : forall c, isAlnumDash c = true -> Q isAlnumDash c = true).
  { intros c H.
    pose proof (ascii_enumerated _ D c (isAlnumDash_ascii c H)) as K.
    cbv beta in K. now rewrite H in K. }
  assert (H64 : forall c, (64 =? c) = true -> Q (N.eqb 64) c = true).
  { intros c H. apply N.eqb_eq in H. now subst c. }
  assert (H46 : forall c, (46 =? c) = true -> Q (N.eqb 46) c = true).
  { intros c H. apply N.eqb_eq in H. now subst c. }
  cbn. tauto.
Qed.

(** An accepted address is made of code units below 128 that are not white
    space. *)
Lemma emailRegex_plain s :
  matches emailRegex s ->
  forallb (fun c => isAscii c && negb (isWhiteSpace c)) s = true.
Proof.
  apply matches_classes.
  apply (emailRegex_classes
           (fun _ c => isAscii c && negb (isWhiteSpace c)));
    vm_compute; reflexivity.
Qed.

(** An accepted address in lower case is accepted. *)
Lemma emailRegex_lowerAscii s :
  matches emailRegex s -> matches emailRegex (List.map lowerAscii s).
Proof.
  apply matches_map.
  apply (emailRegex_classes (fun p c => p (lowerAscii c)));
    vm_compute; reflexivity.
Qed.

Lemma atSigns_none s :
  forallb (fun c => negb (c =? 64)) s = true -> atSigns s = 0%nat.
Proof.
  unfold atSigns. induction s as [|c s IH]; [reflexivity|]. cbn.
  intros H. apply andb_true_iff in H as [Hc Hs].
  destruct (N.eq_dec c 64) as [->|]; [discriminate | auto].
Qed.

Lemma atSigns_app s1 s2 : atSigns (s1 ++ s2) = (atSigns s1 + atSigns s2)%nat.
Proof. apply count_occ_app. Qed.

(** An accepted address has one [@]. *)
Lemma emailRegex_one_at s : matches emailRegex s -> atSigns s = 1%nat.
Proof.
  intros M. unfold emailRegex in M.
  inversion M as [| |r1 r2 s1 s2 M1 M2| | | | | |]; subst.
  inversion M2 as [| |r1 r2 s3 s4 M3 M4| | | | | |]; subst.
  inversion M3 as [|p c Hc| | | | | | |]; subst.
  apply N.eqb_eq in Hc. subst c.
  rewrite !atSigns_app, (atSigns_none s1), (atSigns_none s4);
    [reflexivity| |].
  - revert M4. apply matches_classes. cbn.
    assert (HA : forall c, isAlnum c = true -> negb (c =? 64) = true).
    { intros c H.
      pose proof (ascii_enumerated
        (fun c => implb (isAlnum c) (negb (c =? 64)))
        ltac:(vm_compute; reflexivity) c (isAlnum_ascii c H)) as K.
      cbv beta in K. now rewrite H in K. }
    assert (HD : forall c, isAlnumDash c = true -> negb (c =? 64) = true).
    { intros c H.
      pose proof (ascii_enumerated
        (fun c => implb (isAlnumDash c) (negb (c =? 64)))
        ltac:(vm_compute; reflexivity) c (isAlnumDash_ascii c H)) as K.
      cbv beta in K. now rewrite H in K. }
    assert (H46 : forall c, (46 =? c) = true -> negb (c =? 64) = true).
    { intros c H. apply N.eqb_eq in H. now subst c. }
    tauto.
  - revert M1. apply matches_classes. cbn.
    assert (HL : forall c, isLocalPart c = true -> negb (c =? 64) = true).
    { intros c H.
      pose proof (ascii_enumerated
        (fun c => implb (isLocalPart c) (negb (c =? 64)))
        ltac:(vm_compute; reflexivity) c (isLocalPart_ascii c H)) as K.
      cbv beta in K. now rewrite H in K. }
    tauto.
Qed.

(** *** Trimming *)






Lemma trimStart_fixed s :
  match s with
  | c :: _ => isWhiteSpace c = false
  | [] => True
  end -> trimStart s = s.
Proof. destruct s as [|c s]; [reflexivity|]. cbn. now intros ->. Qed.


(** A string without white space is left as it is. *)
Lemma trim_plain s :
  forallb (fun c => negb (isWhiteSpace c)) s = true -> trim s = s.
Proof.
  intros H. unfold trim.
  assert (forall l, forallb (fun c => negb (isWhiteSpace c)) l = true ->
                    trimStart l = l) as T.
  { intros l Hl. apply trimStart_fixed. destruct l as [|c l]; [exact I|].
    cbn in Hl. apply andb_true_iff in Hl as [Hc _].
    now apply negb_true_iff in Hc. }
  rewrite (T s H), T, rev_involutive; [reflexivity|].
  rewrite forallb_forall in *. intros c Hc. apply H. now apply in_rev.
Qed.

(** What [validateForm] has checked when it returns [true]. *)
Lemma validateForm_checked form plotId :
  isValid (validateForm form plotId) = true ->
  nonEmpty (trim (name form)) = true /\
  nonEmpty (trim (email form)) = true /\
  nonEmpty (trim (phone form)) = true /\
  test emailRegex (email form) = true /\
  List.length (stripNonDigits (phone form)) = 10%nat /\
  present plotId = true.
Proof.
  unfold validateForm.
  destruct (nonEmpty (trim (name form))); [|discriminate].
  destruct (nonEmpty (trim (email form))); [|discriminate].
  destruct (nonEmpty (trim (phone form))); [|discriminate].
  destruct (test emailRegex (email form)); [|discriminate].
  cbn [negb]. cbv zeta.
  destruct (_ || _) eqn:E; [discriminate|].
  apply FormFacts.exactly_ten in E.
  destruct (test digitsRegex _); [|discriminate].
  destruct (present plotId); [|discriminate].
  intros _. repeat split. exact E.
Qed.

Section Submitted.

Variable toLowerCase : jsstring -> jsstring.

(** On code units below 128, [toLowerCase] maps the capital letters and
    nothing else. *)
Hypothesis toLowerCase_ascii :
  forall s, forallb isAscii s = true ->
            toLowerCase s = List.map lowerAscii s.

Local Abbreviation handleSubmit := (handleSubmit toLowerCase).

(** X9. The address of a submitted request.  An address [validateForm]
    accepts is made of code units below 128 without white space and has
    one [@], so that trimming does not change it: what is sent is the
    address as typed with its capital letters in lower case, and
    [emailRegex] accepts that as well. *)
Theorem submitted_email_is_the_input_in_lower_case :
  forall form plotId date time clerkUserId r,
    handleSubmit form plotId date time clerkUserId = Some r ->
    visit_email r = List.map lowerAscii (email form) /\
    test emailRegex (visit_email r) = true /\
    atSigns (visit_email r) = 1%nat /\
    forallb (fun c => negb (isWhiteSpace c)) (visit_email r) = true.
Proof.
  intros form plotId date time clerkUserId r. unfold BookVisit.handleSubmit.
  destruct (isValid (validateForm form plotId)) eqn:V; [|discriminate].
  cbn [negb]. intros [= <-]. cbn [visit_email].
  apply validateForm_checked in V as (_ & _ & _ & Hm & _).
  apply RegexFacts.test_matches in Hm.
  pose proof (emailRegex_plain _ Hm) as P.
  assert (forallb isAscii (email form) = true /\
          forallb (fun c => negb (isWhiteSpace c)) (email form) = true)
    as [Pa Pw].
  { rewrite !forallb_forall in *.
    split; intros c Hc; apply P, andb_true_iff in Hc; tauto. }
  rewrite (trim_plain _ Pw), (toLowerCase_ascii _ Pa).
  pose proof (emailRegex_lowerAscii _ Hm) as Hl.
  split; [reflexivity|].
  split; [now apply RegexFacts.test_matches|].
  split; [now apply emailRegex_one_at|].
  pose proof (emailRegex_plain _ Hl) as Q.
  rewrite !forallb_forall in *.
  intros c Hc; apply Q, andb_true_iff in Hc; tauto.
Qed.


(** X11. The plot of a submitted request.  [validateForm] checks the route
    parameter for truthiness, and an array passes that check even when
    empty: a request goes out without a plot id exactly when the parameter
    is the empty array.  A parameter that is a string is sent as it is and
    is not empty; of an array the first element is sent, whatever it is. *)
Theorem submitted_plot_id :
  forall form plotId date time clerkUserId r,
    handleSubmit form plotId date time clerkUserId = Some r ->
    (visit_plotId r = None <-> plotId = Many []) /\
    (forall s, plotId = Single s ->
               visit_plotId r = Some s /\ nonEmpty s = true) /\
    (forall s l, plotId = Many (s :: l) -> visit_plotId r = Some s) /\
    forall other,
      isValid (validateForm form other) = true ->
      isValid (validateForm form (Many [])) = true.
Proof.
  intros form plotId date time clerkUserId r. unfold BookVisit.handleSubmit.
  destruct (isValid (validateForm form plotId)) eqn:V; [|discriminate].
  cbn [negb]. intros [= <-]. cbn [visit_plotId].
  apply validateForm_checked in V as (_ & _ & _ & _ & _ & Hp).
  split; [|split; [|split]].
  - destruct plotId as [|s|[|s l]]; cbn in *; split; congruence.
  - intros s ->. auto.
  - intros s l ->. reflexivity.
  - intros other. unfold validateForm.
    destruct (nonEmpty (trim (name form))); [|discriminate].
    destruct (nonEmpty (trim (email form))); [|discriminate].
    destruct (nonEmpty (trim (phone form))); [|discriminate].
    destruct (test emailRegex (email form)); [|discriminate].
    cbn [negb]. cbv zeta.
    destruct (_ || _); [discriminate|].
    destruct (test digitsRegex _); [|discriminate].
    reflexivity.
Qed.

End Submitted.

Import SampleMore.

Lemma submitted_email_is_the_input_in_lower_case_witness :
  exists r,
    handleSubmit (List.map lowerAscii) typed (Single (str "plot-7"))
                 "2025-01-31" "10:30 AM" None = Some r /\
    visit_email r = str "asha.rao@example.com".
Proof.
  eexists. split; [vm_compute; reflexivity|].
  exact (proj1 (submitted_email_is_the_input_in_lower_case
                  (List.map lowerAscii) (fun s _ => eq_refl)
                  typed (Single (str "plot-7")) "2025-01-31" "10:30 AM" None
                  _ eq_refl)).
Defined.


Lemma submitted_plot_id_witness :
  exists r,
    handleSubmit (List.map lowerAscii) typed (Many [])
                 "2025-01-31" "10:30 AM" None = Some r /\
    visit_plotId r = None.
Proof.
  eexists. split; [vm_compute; reflexivity|].
  exact (proj2 (proj1 (submitted_plot_id
                  (List.map lowerAscii)
                  typed (Many []) "2025-01-31" "10:30 AM" None
                  _ eq_refl)) eq_refl).
Defined.

End BookVisitFacts.


(** ** The feedback forms of the bookings screen *)

Module BookingsFacts.

Import Form Bookings.

Lemma find_app_or {A : Type} (p : A -> bool) (l1 l2 : list A) :
  find p (l1 ++ l2) =
  match find p l1 with
  | Some x => Some x
  | None => find p l2
  end.
Proof.
  induction l1 as [|a l1 IH]; [reflexivity|]. cbn.
  destruct (p a); [reflexivity | exact IH].
Qed.

(** What the [reduce] of [fetchBookings] builds. *)
Lemma lookup_reduce id l : forall acc,
  lookup id (fold_left (fun acc booking =>
                          set (booking_id booking) (blank booking) acc)
                       l acc) =
  match lastWith id l with
  | Some booking => Some (blank booking)
  | None => lookup id acc
  end.
Proof.
  unfold lastWith. induction l as [|b l IH]; intros acc; [reflexivity|].
  cbn [fold_left rev]. rewrite IH, find_app_or.
  destruct (find _ (rev l)); [reflexivity|].
  cbn. destruct (String.eqb id (booking_id b)); reflexivity.
Qed.

Lemma lastWith_listed id l booking :
  lastWith id l = Some booking -> In booking l /\ booking_id booking = id.
Proof.
  unfold lastWith. intros H. apply find_some in H as [Hin He].
  apply String.eqb_eq in He. split; [now apply in_rev | congruence].
Qed.

Lemma listed_lastWith l booking :
  In booking l -> exists other, lastWith (booking_id booking) l = Some other.
Proof.
  unfold lastWith. intros H.
  destruct (find _ (rev l)) as [x|] eqn:E; [now exists x|].
  apply in_rev in H. apply (find_none _ _ E) in H.
  now rewrite String.eqb_refl in H.
Qed.

Lemma complete_blank booking : complete (blank booking) = true.
Proof. reflexivity. Qed.

(** An update that brings a rating of at most five keeps an entry
    complete. *)
Lemma complete_spread prev data :
  complete prev = true ->
  match rating data with
  | Some r => Nat.leb r 5 = true
  | None => True
  end ->
  complete (spread prev data) = true.
Proof.
  unfold complete, spread. cbn.
  destruct prev as [[r|] [e|] [s|] [i|] [b|]]; cbn; try discriminate.
  destruct data as [[r'|] [e'|] [s'|] [i'|] [b'|]]; cbn; auto.
Qed.

Lemma offered_rating e :
  offered e = true ->
  match rating (partialOf e) with
  | Some r => Nat.leb r 5 = true
  | None => True
  end.
Proof.
  destruct e as [star| | |]; cbn; auto.
  repeat (destruct star as [|star]; try discriminate; try reflexivity).
Qed.

Lemma entriesComplete_setFeedbackDataOf id data st :
  match rating data with
  | Some r => Nat.leb r 5 = true
  | None => True
  end ->
  entriesComplete st -> entriesComplete (setFeedbackDataOf id data st).
Proof.
  intros Hr I b Hb. destruct (I b Hb) as (f & Hf & Cf).
  unfold setFeedbackDataOf. cbn.
  destruct (String.eqb (booking_id b) id) eqn:E; [|now exists f].
  apply String.eqb_eq in E. subst id. rewrite Hf.
  eexists. split; [reflexivity|]. now apply complete_spread.
Qed.

Section Reachable.

Variable toLowerCase : jsstring -> jsstring.

Local Abbreviation fetchBookings := (fetchBookings toLowerCase).
Local Abbreviation onRefresh := (onRefresh toLowerCase).
Local Abbreviation step := (step toLowerCase).
Local Abbreviation reachable := (reachable toLowerCase).

Lemma entriesComplete_fetchBookings s resp st :
  entriesComplete st -> entriesComplete (fetchBookings s resp st).
Proof.
  intros I. unfold Bookings.fetchBookings.
  destruct (signedInAs s) as [uid|]; [|exact I].
  destruct (negb (isOnline s)); [exact I|].
  destruct resp as [message| |data]; [exact I | exact I |].
  intros b Hb. cbn in Hb |- *.
  rewrite lookup_reduce.
  destruct (listed_lastWith _ _ Hb) as (other & ->).
  exists (blank other). now split.
Qed.

Lemma step_entriesComplete st st' :
  step st st' -> entriesComplete st -> entriesComplete st'.
Proof.
  intros [s resp s0 | s resp s0 | id s0 | id e s0 He | s id s0 p Hp
         | resp id s0 | id s0] I.
  - now apply entriesComplete_fetchBookings.
  - unfold Bookings.onRefresh.
    assert (entriesComplete (setRefreshing true s0)) as I' by exact I.
    apply (entriesComplete_fetchBookings s resp) in I'.
    cbv zeta. destruct (fetchBookingsRejects s resp); exact I'.
  - exact I.
  - apply entriesComplete_setFeedbackDataOf; [now apply offered_rating | exact I].
  - exact I.
  - unfold submitSettled. destruct resp as [|message|]; [|exact I | exact I].
    exact (entriesComplete_setFeedbackDataOf id
             (mkFeedback None None None None (Some true)) s0 Logic.I I).
  - intros b Hb. cbn in Hb. apply filter_In in Hb as [Hb _]. now apply I.
Qed.

Lemma reachable_entriesComplete st : reachable st -> entriesComplete st.
Proof.
  induction 1 as [|st st' _ IH Hstep].
  - intros b [].
  - eapply step_entriesComplete; eauto.
Qed.

Lemma complete_fields f :
  complete f = true ->
  exists r e s i b,
    f = mkFeedback (Some r) (Some e) (Some s) (Some i) (Some b) /\ r <= 5.
Proof.
  destruct f as [[r|] [e|] [s|] [i|] [sub|]]; try discriminate.
  intros C. exists r, e, s, i, sub. split; [reflexivity|].
  now apply Nat.leb_le in C.
Qed.

(** X12. Every booking the screen lists has its entry in [feedbackData],
    with all five fields and a rating between 0 and 5, in every state the
    screen can reach: the feedback form of a listed booking never reads an
    entry or a field that is not there. *)
Theorem listed_bookings_have_complete_feedback :
  forall st,
    reachable st ->
    forall booking,
      In booking (bookings st) ->
      exists r e s i b,
        lookup (booking_id booking) (feedbackData st)
        = Some (mkFeedback (Some r) (Some e) (Some s) (Some i) (Some b)) /\
        r <= 5.
Proof.
  intros st R b Hb.
  destruct (reachable_entriesComplete st R b Hb) as (f & Hf & Cf).
  destruct (complete_fields f Cf) as (r & e & s & i & sub & -> & Hr).
  now exists r, e, s, i, sub.
Qed.


(** X14. A fetch that succeeds resets every feedback form.  The list
    becomes the user's bookings among those fetched, and [feedbackData] is
    built anew from it: an id has an entry exactly when a listed booking
    carries it, and the entry is blank, so that ratings and texts typed
    before are lost and [submitted] is what the fetched booking says.  No
    form can be submitted from that state before it is filled in again. *)
Theorem fetched_bookings_have_blank_feedback :
  forall s uid data st,
    signedInAs s = Some uid ->
    isOnline s = true ->
    let st' := fetchBookings s (VisitsData data) st in
    bookings st' = filter (isUserBooking toLowerCase s uid) data /\
    error st' = None /\
    loading st' = false /\
    (forall id,
       lookup id (feedbackData st')
       = option_map blank (lastWith id (bookings st'))) /\
    forall s' id payload,
      handleSubmitFeedback s' id st' <> Submits payload.
Proof.
  intros s uid data st Hs Ho. cbv zeta. unfold Bookings.fetchBookings.
  rewrite Hs, Ho. cbn [negb]. cbv zeta. cbn.
  split; [reflexivity|]. split; [reflexivity|]. split; [reflexivity|].
  assert (forall id,
    lookup id
      (fold_left (fun acc booking =>
                    set (booking_id booking) (blank booking) acc)
                 (filter (isUserBooking toLowerCase s uid) data) [])
    = option_map blank
        (lastWith id (filter (isUserBooking toLowerCase s uid) data))) as L.
  { intros id. rewrite lookup_reduce.
    destruct (lastWith id _); reflexivity. }
  split; [exact L|].
  intros s' id payload. unfold handleSubmitFeedback. cbn. rewrite L.
  destruct (signedInAs s'); [|discriminate].
  destruct (negb (isOnline s')); [discriminate|].
  destruct (lastWith id _); discriminate.
Qed.

(** X15. What a fetch that does not succeed leaves.  No fetch leaves the
    screen loading.  A fetch succeeds, and clears the error, where the user
    is signed in with an id, the device is on line and the request delivers
    its data.  In every other case the list and the feedback forms are left
    as they were.  An error that is not empty is then set, but for one
    case: where the request rejects with [null] or [undefined], the [catch]
    block throws on reading [err.message], the error is left as it was,
    the promise of [fetchBookings] is rejected, and [onRefresh], which
    awaits it, leaves the screen refreshing. *)
Theorem failed_fetch_keeps_the_bookings :
  forall s resp st,
    let st' := fetchBookings s resp st in
    loading st' = false /\
    ((exists uid data,
        signedInAs s = Some uid /\ isOnline s = true /\
        resp = VisitsData data) /\
     error st' = None /\ fetchBookingsRejects s resp = false
     \/
     bookings st' = bookings st /\ feedbackData st' = feedbackData st /\
     ((exists message,
         error st' = Some message /\ String.eqb message "" = false) /\
      fetchBookingsRejects s resp = false
      \/
      resp = VisitsRejectedNull /\ error st' = error st /\
      fetchBookingsRejects s resp = true)) /\
    refreshing (onRefresh s resp st) = fetchBookingsRejects s resp /\
    error (onRefresh s resp st) = error st'.
Proof.
  intros s resp st. cbv zeta.
  assert (forall st0, refreshing (fetchBookings s resp st0) = refreshing st0)
    as Hr.
  { intros st0. unfold Bookings.fetchBookings.
    destruct (signedInAs s); [|reflexivity].
    destruct (negb (isOnline s)); [reflexivity|].
    destruct resp; reflexivity. }
  assert (forall v, error (fetchBookings s resp (setRefreshing v st))
                    = error (fetchBookings s resp st)) as He.
  { intros v. unfold Bookings.fetchBookings.
    destruct (signedInAs s); [|reflexivity].
    destruct (negb (isOnline s)); [reflexivity|].
    destruct resp; reflexivity. }
  split; [|split; [|split]].
  - unfold Bookings.fetchBookings.
    destruct (signedInAs s); [|reflexivity].
    destruct (negb (isOnline s)); [reflexivity|].
    destruct resp; reflexivity.
  - unfold Bookings.fetchBookings, fetchBookingsRejects.
    destruct (signedInAs s) as [uid|].
    + destruct (isOnline s); cbn [negb].
      * destruct resp as [message| |data]; cbn.
        -- right. split; [reflexivity|]. split; [reflexivity|]. left.
           split; [|reflexivity].
           eexists. split; [reflexivity|]. now apply or_text_shown.
        -- right. split; [reflexivity|]. split; [reflexivity|]. right.
           now split.
        -- left. split; [now exists uid, data | now split].
      * right. split; [reflexivity|]. split; [reflexivity|]. left.
        split; [|destruct resp; reflexivity].
        eexists. split; reflexivity.
    + right. split; [reflexivity|]. split; [reflexivity|]. left.
      split; [|destruct resp; reflexivity].
      eexists. split; reflexivity.
  - unfold Bookings.onRefresh. cbv zeta.
    destruct (fetchBookingsRejects s resp); [|reflexivity].
    now rewrite Hr.
  - unfold Bookings.onRefresh. cbv zeta.
    destruct (fetchBookingsRejects s resp); [apply He|].
    cbn [error setRefreshing]. apply He.
Qed.

End Reachable.

(** *** At sample data *)

Import SampleMore.

Local Open Scope string_scope.

Lemma filled_reachable :
  reachable (List.map BookVisit.lowerAscii) filled.
Proof.
  unfold filled.
  repeat (eapply reachable_step;
          [|first [apply step_edit; reflexivity | apply step_fetchBookings]]).
  apply reachable_mount.
Qed.

Lemma listed_bookings_have_complete_feedback_witness :
  exists r e s i b,
    lookup "v1" (feedbackData filled)
    = Some (mkFeedback (Some r) (Some e) (Some s) (Some i) (Some b)) /\
    r <= 5.
Proof.
  exact (listed_bookings_have_complete_feedback
           (List.map BookVisit.lowerAscii) filled filled_reachable
           (mkVisit "v1" (str "asha@example.com") None None false)
           (or_introl eq_refl)).
Defined.


Lemma fetched_bookings_have_blank_feedback_witness :
  List.map booking_id
    (bookings (fetchBookings (List.map BookVisit.lowerAscii) visitor
                             (VisitsData visits) filled))
  = ["v1"; "v2"] /\
  lookup "v1"
    (feedbackData (fetchBookings (List.map BookVisit.lowerAscii) visitor
                                 (VisitsData visits) filled))
  = Some (mkFeedback (Some 0%nat) (Some []) (Some []) (Some None) (Some false)).
Proof.
  destruct (fetched_bookings_have_blank_feedback
              (List.map BookVisit.lowerAscii) visitor "user_7"
              visits filled
              eq_refl eq_refl) as (B & _ & _ & L & _).
  split; [rewrite B; reflexivity|].
  rewrite L, B. reflexivity.
Defined.

(** A refresh whose request rejects with [null] sets no error and leaves
    the screen refreshing. *)
Example null_rejection_leaves_refreshing :
  let st := onRefresh (List.map BookVisit.lowerAscii) visitor
                      VisitsRejectedNull filled in
  refreshing st = true /\ error st = None /\ loading st = false.
Proof. repeat split. Qed.

End BookingsFacts.


(** ** The figures of the dashboard *)

Module DashboardFacts.

Import Dashboard.

Lemma filter_length_disjoint {A : Type} (f g : A -> bool) (l : list A) :
  (forall x, f x = true -> g x = false) ->
  (List.length (filter f l) + List.length (filter g l) <= List.length l)%nat.
Proof.
  intros D. induction l as [|x l IH]; [reflexivity|]. cbn.
  destruct (f x) eqn:F.
  - rewrite (D x F). cbn. lia.
  - destruct (g x); cbn; lia.
Qed.

Lemma mapPlots_none items : mapPlots items = None <-> In None items.
Proof.
  induction items as [|[p|] rest IH]; cbn.
  - split; [discriminate | tauto].
  - destruct (mapPlots rest).
    + split; [discriminate|]. intros [H | H]; [discriminate|].
      now apply IH in H.
    + split; [|reflexivity]. intros _. right. now apply IH.
  - split; [auto | reflexivity].
Qed.

Lemma mapPlots_length items l :
  mapPlots items = Some l -> List.length l = List.length items.
Proof.
  revert l. induction items as [|[p|] rest IH]; cbn; intros l.
  - now intros [= <-].
  - destruct (mapPlots rest) as [l'|]; [|discriminate].
    intros [= <-]. cbn. now rewrite (IH l').
  - discriminate.
Qed.

Lemma criticalMessage_shown message :
  String.eqb (criticalMessage message) "" = false.
Proof.
  unfold criticalMessage.
  destruct (String.eqb message "") eqn:E; cbn [negb andb]; [reflexivity|].
  destruct (includes _ _); [reflexivity | exact E].
Qed.

Section Figures.

Variable parseDate : string -> number.
Variable toFixed1 : number -> number.
Variable Project : Type.

Local Abbreviation loadData :=
  (fun currentUserId sevenDaysAgo typeError projectsResult =>
     @loadData parseDate toFixed1 currentUserId sevenDaysAgo typeError
               Project projectsResult).

(** X16. The counts [loadData] shows are consistent, however the four
    requests settle: the available plots and the recent sales are different
    plots, so together they are at most all plots, no more than the plots
    array held; and the pending visits are at most all visits. *)
Theorem dashboard_counts_are_consistent :
  forall currentUserId sevenDaysAgo typeError projectsResult plotsResult
         visitsResult feedbackResult,
    let s := stats (loadData currentUserId sevenDaysAgo typeError
                             projectsResult plotsResult visitsResult
                             feedbackResult) in
    (availablePlots s + recentSales s <= plots s)%nat /\
    (plots s <= List.length (safeData plotsResult))%nat /\
    (pendingVisits s <= visitRequests s)%nat.
Proof.
  intros uid ago msg pr pl vi fe. cbv zeta beta. unfold Dashboard.loadData.
  destruct (mapPlots (safeData pl)) as [l|] eqn:E; cbn.
  - split; [|split].
    + apply filter_length_disjoint. intros p H.
      unfold hasStatus in *. destruct (plot_status p) as [s|]; [|discriminate].
      apply String.eqb_eq in H. subst s. reflexivity.
    + now rewrite (mapPlots_length _ _ E).
    + apply filter_length_le.
  - repeat split; lia.
Qed.

(** X17. A request that is rejected, or answers with something that is no
    array, is passed over in silence: its figures are zero and no error is
    set.  The one thing that sets the error is a plots array that holds
    [null]: then all figures are reset to zero, those of the requests that
    went well included, and the message set is not empty.  In either case
    [loadData] leaves the screen neither loading nor refreshing. *)
Theorem dashboard_error_only_from_a_null_plot :
  forall currentUserId sevenDaysAgo typeError projectsResult plotsResult
         visitsResult feedbackResult,
    let st := loadData currentUserId sevenDaysAgo typeError
                       projectsResult plotsResult visitsResult
                       feedbackResult in
    loading st = false /\ refreshing st = false /\
    (error st = None <-> ~ In None (safeData plotsResult)) /\
    (error st = None ->
     projects (stats st) = List.length (safeData projectsResult) /\
     plots (stats st) = List.length (safeData plotsResult) /\
     visitRequests (stats st) = List.length (safeData visitsResult)) /\
    (error st <> None ->
     error st = Some (criticalMessage typeError) /\
     String.eqb (criticalMessage typeError) "" = false /\
     stats st = noStats).
Proof.
  intros uid ago msg pr pl vi fe. cbv zeta beta. unfold Dashboard.loadData.
  destruct (mapPlots (safeData pl)) as [l|] eqn:E; cbn.
  - split; [reflexivity|]. split; [reflexivity|]. split.
    + split; [|reflexivity]. intros _ H. apply mapPlots_none in H. congruence.
    + split; [|congruence]. intros _.
      now rewrite (mapPlots_length _ _ E).
  - split; [reflexivity|]. split; [reflexivity|]. split.
    + split; [discriminate|]. intros H. exfalso. apply H.
      now apply mapPlots_none.
    + split; [discriminate|]. intros _.
      split; [reflexivity|]. split; [apply criticalMessage_shown | reflexivity].
Qed.

End Figures.

(** Two projects and two visits that loaded, next to a plots array with a
    hole: every figure is zero. *)
Example null_plot_resets_the_dashboard :
  stats (loadData (fun _ => 0%float) (fun x => x) (Some "user_1"%string)
           0%float "Cannot read property 'status' of null"
           (FulfilledArray [Some tt; Some tt])
           (FulfilledArray [Some (mkPlot (Some "SOLD"%string) None); None])
           (FulfilledArray [Some (mkVisitRequest (Some "PENDING"%string));
                            Some (mkVisitRequest None)])
           Rejected)
  = noStats.
Proof. reflexivity. Qed.

End DashboardFacts.


(** ** The locations the home page offers *)

Module HomeFacts.

Import Form Home.

Lemma sameText_spec a b : Bookings.sameText a b = true <-> a = b.
Proof.
  unfold Bookings.sameText. destruct (list_eq_dec N.eq_dec a b); split;
    congruence.
Qed.

Lemma existsb_sameText x set :
  existsb (Bookings.sameText x) set = true <-> In x set.
Proof.
  rewrite existsb_exists. split.
  - intros (y & Hy & E). apply sameText_spec in E. now subst.
  - intros H. exists x. split; [exact H | now apply sameText_spec].
Qed.

(** What a set built from an array holds, and in which order: each value
    once, at the place of its first occurrence. *)
Lemma fromSet_acc xs : forall acc,
  NoDup acc ->
  let set := fold_left (fun set x =>
                          if existsb (Bookings.sameText x) set then set
                          else set ++ [x]) xs acc in
  NoDup set /\ forall x, In x set <-> In x acc \/ In x xs.
Proof.
  induction xs as [|y xs IH]; intros acc N; cbn.
  - split; [exact N | tauto].
  - destruct (existsb (Bookings.sameText y) acc) eqn:E.
    + destruct (IH acc N) as [N' M]. split; [exact N'|].
      intros x. rewrite M. apply existsb_sameText in E.
      split; [tauto|]. intros [H | [<- | H]]; auto.
    + assert (~ In y acc) as Hy.
      { intros H. apply existsb_sameText in H. congruence. }
      assert (NoDup (acc ++ [y])) as N1.
      { apply NoDup_app; [exact N | repeat constructor; intros [] |].
        intros x Hx [<- | []]. contradiction. }
      destruct (IH _ N1) as [N' M]. split; [exact N'|].
      intros x. rewrite M, in_app_iff. cbn. tauto.
Qed.

Lemma orText_some x d s : orText x d = s -> s <> [] -> d = [] ->
  x = Some s.
Proof.
  unfold orText. destruct x as [t|]; [|congruence].
  destruct (nonEmpty t) eqn:E; congruence.
Qed.

(** A location that is offered is not empty and comes from a project. *)
Lemma offered_from_project projects x :
  In x (locations projects) ->
  x <> [] /\ exists p, In p projects /\ cityOrLocation p = x.
Proof.
  unfold locations, fromSet. intros H.
  apply (fromSet_acc _ [] (NoDup_nil _)) in H as [[] | H].
  apply filter_In in H as [H Hx]. apply in_map_iff in H as (p & E & Hp).
  split; [intros ->; discriminate | now exists p].
Qed.

(** X18. The locations offered are the cities of the projects, or their
    locations where they have no city: each such text that is not empty is
    offered, once, and nothing else is. *)
Theorem locations_are_the_cities_or_locations :
  forall projects,
    NoDup (locations projects) /\
    forall x,
      In x (locations projects) <->
      x <> [] /\ exists p, In p projects /\ cityOrLocation p = x.
Proof.
  intros projects. unfold locations.
  destruct (fromSet_acc (filter nonEmpty (List.map cityOrLocation projects))
                        [] (NoDup_nil _)) as [N M].
  split; [exact N|]. intros x. unfold fromSet. rewrite M.
  rewrite filter_In, in_map_iff. cbn. split.
  - intros [[] | [(p & E & Hp) Hx]]. split; [|now exists p].
    intros ->. discriminate.
  - intros (Hx & p & Hp & E). right. split; [now exists p|].
    destruct x; [contradiction | reflexivity].
Qed.

Section Offered.

Variable toLowerCase : jsstring -> jsstring.

(** The empty text in lower case is the empty text. *)
Hypothesis toLowerCase_empty : toLowerCase [] = [].

Local Abbreviation filteredProjects := (filteredProjects toLowerCase).

Lemma includes_empty s : includes [] s = true.
Proof. destruct s; reflexivity. Qed.

(** X19. With the search box empty, a location that is offered never
    filters everything away: every project it was taken from is shown, and
    all that is shown has it as city or as location.  A project with neither
    city nor location is shown under no location. *)
Theorem offered_location_shows_its_projects :
  forall projects selected,
    In selected (locations projects) ->
    (forall p, In p projects -> cityOrLocation p = selected ->
               In p (filteredProjects [] selected projects)) /\
    filteredProjects [] selected projects <> [] /\
    forall p, In p (filteredProjects [] selected projects) ->
              city p = Some selected \/ location p = Some selected.
Proof.
  intros projects selected H.
  apply offered_from_project in H as (Hx & p0 & Hp0 & E0).
  assert (nonEmpty selected = true) as Hn
    by (destruct selected; [contradiction | reflexivity]).
  assert (forall p, In p projects -> cityOrLocation p = selected ->
                    In p (filteredProjects [] selected projects)) as Shown.
  { intros p Hp E. unfold Home.filteredProjects. apply filter_In.
    split; [exact Hp|]. cbv zeta. rewrite Hn.
    unfold cityOrLocation in E.
    destruct (city p) as [c|] eqn:Ec; cbn in E.
    - destruct (nonEmpty c) eqn:Nc.
      + subst c. unfold fieldMatches, isText.
        rewrite toLowerCase_empty, !includes_empty.
        rewrite (proj2 (sameText_spec selected selected) eq_refl).
        rewrite !orb_true_r. reflexivity.
      + apply orText_some in E; [|exact Hx | reflexivity]. rewrite E.
        unfold fieldMatches, isText.
        rewrite toLowerCase_empty, !includes_empty.
        rewrite (proj2 (sameText_spec selected selected) eq_refl).
        rewrite !orb_true_r. reflexivity.
    - apply orText_some in E; [|exact Hx | reflexivity]. rewrite E.
      unfold fieldMatches, isText.
      rewrite toLowerCase_empty, !includes_empty.
      rewrite (proj2 (sameText_spec selected selected) eq_refl).
      rewrite !orb_true_r. reflexivity. }
  split; [exact Shown|]. split.
  - intros E. specialize (Shown p0 Hp0 E0). rewrite E in Shown. exact Shown.
  - intros p Hp. unfold Home.filteredProjects in Hp.
    apply filter_In in Hp as [_ Hp]. cbv zeta in Hp. rewrite Hn in Hp.
    apply andb_true_iff in Hp as [_ Hp]. apply orb_true_iff in Hp.
    unfold isText in Hp.
    destruct Hp as [Hp | Hp]; [left | right].
    + destruct (city p) as [c|]; [|discriminate].
      apply sameText_spec in Hp. now subst.
    + destruct (location p) as [c|]; [|discriminate].
      apply sameText_spec in Hp. now subst.
Qed.

End Offered.

(** *** At sample data *)

Import SampleMore.

Lemma offered_location_shows_its_projects_witness :
  locations sampleProjects = [str "Chennai"; str "Adyar"] /\
  List.map project_name
    (filteredProjects (List.map BookVisit.lowerAscii) [] (str "Adyar")
                      sampleProjects)
  = [Some (str "Green Acres"); Some (str "Lake View")] /\
  filteredProjects (List.map BookVisit.lowerAscii) [] (str "Adyar")
                   sampleProjects <> [].
Proof.
  split; [vm_compute; reflexivity|]. split; [vm_compute; reflexivity|].
  exact (proj1 (proj2 (offered_location_shows_its_projects
                         (List.map BookVisit.lowerAscii) eq_refl
                         sampleProjects (str "Adyar")
                         ltac:(vm_compute; auto)))).
Defined.

End HomeFacts.
